(** * The Rebbe and Me: the LangGraph orchestrator

    A shallow embedding of [src/agents/orchestrator/main_orchestrator.py]:
    the shared [AgentState], the seven node functions, [should_continue],
    the graph built by [create_workflow] and a sequential walk of that
    graph, followed by the properties of the routing core. *)

From Stdlib Require Import String Ascii List Bool Arith Lia DecimalString.
Import ListNotations.
Open Scope string_scope.
Open Scope list_scope.
Set Warnings "-register-all".

(* ================================================================== *)
(** ** Python values *)
(* ================================================================== *)

(** The values that [json.loads] can return and [json.dumps] can print.
    A number is kept as its literal: no node looks inside one. *)
Inductive pyval : Type :=
| VNone
| VBool (b : bool)
| VNum (literal : string)
| VStr (s : string)
| VList (l : list pyval)
| VDict (d : list (string * pyval)).

(** A [dict] with string keys, in insertion order. *)
Definition dict : Type := list (string * pyval).

Fixpoint assoc {A : Type} (k : string) (d : list (string * A)) : option A :=
  match d with
  | [] => None
  | (k', v) :: d' => if String.eqb k k' then Some v else assoc k d'
  end.

(** [k in d] for a dict [d]. *)
Definition has_key {A : Type} (k : string) (d : list (string * A)) : bool :=
  match assoc k d with Some _ => true | None => false end.

(** [x in l] for a list of strings [l]. *)
Definition mem (x : string) (l : list string) : bool :=
  existsb (String.eqb x) l.

(** [str(n)] for a length. *)
Definition str_of_nat (n : nat) : string :=
  NilZero.string_of_uint (Nat.to_uint n).

(** A key of the state that the code reads with [state.get(key, default)]:
    the key may be missing, and only then does the default apply. *)
Inductive slot (A : Type) : Type :=
| Missing
| Stored (v : A).
Arguments Missing {A}.
Arguments Stored {A} v.

(** [state.get(key, default)] *)
Definition get {A : Type} (s : slot A) (default : A) : A :=
  match s with
  | Missing => default
  | Stored v => v
  end.

(* ================================================================== *)
(** ** Exceptions *)
(* ================================================================== *)

Inductive exn : Type :=
| KeyError (key : string)
| APIError
| JSONDecodeError.

Inductive result (A : Type) : Type :=
| Ok (a : A)
| Raise (e : exn).
Arguments Ok {A} a.
Arguments Raise {A} e.

Definition bind {A B : Type} (r : result A) (k : A -> result B) : result B :=
  match r with
  | Ok a => k a
  | Raise e => Raise e
  end.

Notation "x <- r ;; k" := (bind r (fun x => k))
  (at level 61, r at next level, right associativity).
Notation "' p <- r ;; k" := (bind r (fun x => let p := x in k))
  (at level 61, p pattern, r at next level, right associativity).

(* ================================================================== *)
(** ** STATE DEFINITION *)
(* ================================================================== *)

(** [class AgentState(TypedDict)].  [Optional[...]] fields are [option];
    the four keys read through [state.get] are [slot]s.
    [current_events_mapped] receives whatever [json.loads] returned, so it
    holds a [pyval], [VNone] being Python's [None]. *)
Record AgentState : Type := mkState {
  task_id : string;
  task_type : string;
  user_input : string;
  current_agent : string;
  sources_found : slot (list dict);
  citations : list dict;
  hebrew_content : option string;
  english_content : slot (option string);
  structure : option dict;
  verified_links : slot (list dict);
  broken_links : list string;
  translations : option dict;
  current_events_mapped : slot pyval;
  rebbe_prophecies : option (list dict);
  messages : list string;
  completed_agents : list string;
  errors : list string;
  final_output : option string
}.

Definition set_current_agent (v : string) (s : AgentState) : AgentState :=
  mkState (task_id s) (task_type s) (user_input s) v (sources_found s)
    (citations s) (hebrew_content s) (english_content s) (structure s)
    (verified_links s) (broken_links s) (translations s)
    (current_events_mapped s) (rebbe_prophecies s) (messages s)
    (completed_agents s) (errors s) (final_output s).

Definition set_sources_found (v : list dict) (s : AgentState) : AgentState :=
  mkState (task_id s) (task_type s) (user_input s) (current_agent s) (Stored v)
    (citations s) (hebrew_content s) (english_content s) (structure s)
    (verified_links s) (broken_links s) (translations s)
    (current_events_mapped s) (rebbe_prophecies s) (messages s)
    (completed_agents s) (errors s) (final_output s).

Definition set_english_content (v : option string) (s : AgentState) : AgentState :=
  mkState (task_id s) (task_type s) (user_input s) (current_agent s)
    (sources_found s) (citations s) (hebrew_content s) (Stored v) (structure s)
    (verified_links s) (broken_links s) (translations s)
    (current_events_mapped s) (rebbe_prophecies s) (messages s)
    (completed_agents s) (errors s) (final_output s).

Definition set_verified_links (v : list dict) (s : AgentState) : AgentState :=
  mkState (task_id s) (task_type s) (user_input s) (current_agent s)
    (sources_found s) (citations s) (hebrew_content s) (english_content s)
    (structure s) (Stored v) (broken_links s) (translations s)
    (current_events_mapped s) (rebbe_prophecies s) (messages s)
    (completed_agents s) (errors s) (final_output s).

Definition set_broken_links (v : list string) (s : AgentState) : AgentState :=
  mkState (task_id s) (task_type s) (user_input s) (current_agent s)
    (sources_found s) (citations s) (hebrew_content s) (english_content s)
    (structure s) (verified_links s) v (translations s)
    (current_events_mapped s) (rebbe_prophecies s) (messages s)
    (completed_agents s) (errors s) (final_output s).

Definition set_translations (v : option dict) (s : AgentState) : AgentState :=
  mkState (task_id s) (task_type s) (user_input s) (current_agent s)
    (sources_found s) (citations s) (hebrew_content s) (english_content s)
    (structure s) (verified_links s) (broken_links s) v
    (current_events_mapped s) (rebbe_prophecies s) (messages s)
    (completed_agents s) (errors s) (final_output s).

Definition set_current_events_mapped (v : pyval) (s : AgentState) : AgentState :=
  mkState (task_id s) (task_type s) (user_input s) (current_agent s)
    (sources_found s) (citations s) (hebrew_content s) (english_content s)
    (structure s) (verified_links s) (broken_links s) (translations s)
    (Stored v) (rebbe_prophecies s) (messages s)
    (completed_agents s) (errors s) (final_output s).

Definition set_final_output (v : option string) (s : AgentState) : AgentState :=
  mkState (task_id s) (task_type s) (user_input s) (current_agent s)
    (sources_found s) (citations s) (hebrew_content s) (english_content s)
    (structure s) (verified_links s) (broken_links s) (translations s)
    (current_events_mapped s) (rebbe_prophecies s) (messages s)
    (completed_agents s) (errors s) v.

(** [state["messages"].append(m)] *)
Definition append_message (m : string) (s : AgentState) : AgentState :=
  mkState (task_id s) (task_type s) (user_input s) (current_agent s)
    (sources_found s) (citations s) (hebrew_content s) (english_content s)
    (structure s) (verified_links s) (broken_links s) (translations s)
    (current_events_mapped s) (rebbe_prophecies s) (messages s ++ [m])
    (completed_agents s) (errors s) (final_output s).

(** [state["completed_agents"].append(a)] *)
Definition append_completed (a : string) (s : AgentState) : AgentState :=
  mkState (task_id s) (task_type s) (user_input s) (current_agent s)
    (sources_found s) (citations s) (hebrew_content s) (english_content s)
    (structure s) (verified_links s) (broken_links s) (translations s)
    (current_events_mapped s) (rebbe_prophecies s) (messages s)
    (completed_agents s ++ [a]) (errors s) (final_output s).

(* ================================================================== *)
(** ** The collaborators and the world *)
(* ================================================================== *)

(** What the nodes call outside the repository.  [reply n] is the text
    [response.content[0].text] of the [n]-th request made to
    [anthropic_client.messages.create], or [None] when that request (or
    reading its first content block) raises; a reply may depend on the
    prompt in any way, since the properties quantify over every [reply].
    [json_loads] and [json_dumps] are Python's [json.loads] and
    [json.dumps(_, indent=2)]; [isoformat_utcnow n] is the [n]-th reading
    of [datetime.utcnow().isoformat()]. *)
Record Env : Type := mkEnv {
  reply : nat -> option string;
  json_loads : string -> option pyval;
  json_dumps : pyval -> string;
  isoformat_utcnow : nat -> string
}.

(** How many requests were sent and how often the clock was read. *)
Record World : Type := mkWorld {
  requests : nat;
  clock_reads : nat
}.

(** [anthropic_client.messages.create(...)] followed by
    [response.content[0].text] *)
Definition create_message (env : Env) (w : World) : result (string * World) :=
  match reply env (requests w) with
  | Some text => Ok (text, mkWorld (S (requests w)) (clock_reads w))
  | None => Raise APIError
  end.

(** [json.loads(text)] *)
Definition loads (env : Env) (text : string) : result pyval :=
  match json_loads env text with
  | Some v => Ok v
  | None => Raise JSONDecodeError
  end.

(** [datetime.utcnow().isoformat()] *)
Definition utcnow (env : Env) (w : World) : string * World :=
  (isoformat_utcnow env (clock_reads w),
   mkWorld (requests w) (S (clock_reads w))).

(* ================================================================== *)
(** ** AGENT NODES *)
(* ================================================================== *)

(** [orchestrator_node]: determines which agent should run next.  The
    [if]/[elif] chain over [task_type] has no final [else]: for any other
    task type [current_agent] is not assigned. *)
Definition orchestrator_node (state : AgentState) : AgentState :=
  let task_type := task_type state in
  let completed := completed_agents state in
  let state := append_message ("[ORCHESTRATOR] Starting task: " ++ task_type) state in
  if task_type =? "farbrengen" then
    if negb (mem "research" completed) then set_current_agent "research" state
    else if negb (mem "context" completed) then set_current_agent "context" state
    else if negb (mem "content" completed) then set_current_agent "content" state
    else if negb (mem "links" completed) then set_current_agent "links" state
    else set_current_agent "complete" state
  else if task_type =? "source_lookup" then
    if negb (mem "research" completed) then set_current_agent "research" state
    else if negb (mem "links" completed) then set_current_agent "links" state
    else set_current_agent "complete" state
  else if task_type =? "dvar_torah" then
    if negb (mem "research" completed) then set_current_agent "research" state
    else if negb (mem "content" completed) then set_current_agent "content" state
    else if negb (mem "translation" completed) then set_current_agent "translation" state
    else set_current_agent "complete" state
  else state.

(** The one source that [research_agent_node] stores. *)
Definition found_source : dict :=
  [ ("type", VStr "sicha");
    ("citation", VStr "Sichos Kodesh 5747, Behar-Bechukosai");
    ("topic", VStr "Shleimus HaAretz");
    ("url", VStr "https://www.chabad.org/therebbe/article_cdo/aid/4463154");
    ("page", VStr "478-482") ].

(** [research_agent_node]: the reply must decode as JSON, but the decoded
    [research_plan] is not used. *)
Definition research_agent_node (env : Env) (state : AgentState) (w : World)
  : result (AgentState * World) :=
  let state := append_message "[RESEARCH AGENT] Starting source search..." state in
  '(text, w) <- create_message env w ;;
  research_plan <- loads env text ;;
  let found := [found_source] in
  let state := set_sources_found found state in
  let state := append_message
    ("[RESEARCH AGENT] Found " ++ str_of_nat (length found) ++ " sources") state in
  let state := append_completed "research" state in
  Ok (state, w).

(** Building [sources_text] subscripts [s['citation']] for every source. *)
Definition sources_text_ok (sources : list dict) : result unit :=
  if forallb (has_key "citation") sources then Ok tt
  else Raise (KeyError "citation").

(** [content_generation_node].  The prompt is only text for the
    collaborator; what is kept of its construction is that it can raise:
    [s['citation']] is a subscript, [s.get('topic', '')] and
    [json.dumps(context, indent=2)] are not. *)
Definition content_generation_node (env : Env) (state : AgentState) (w : World)
  : result (AgentState * World) :=
  let state := append_message "[CONTENT AGENT] Generating content..." state in
  let sources := get (sources_found state) [] in
  let context := get (current_events_mapped state) (VDict []) in
  _ <- sources_text_ok sources ;;
  '(text, w) <- create_message env w ;;
  let state := set_english_content (Some text) state in
  let state := append_message "[CONTENT AGENT] Content generated successfully" state in
  let state := append_completed "content" state in
  Ok (state, w).

(** The loop that fills [urls_to_check]. *)
Fixpoint urls_to_check (sources : list dict) : list pyval :=
  match sources with
  | [] => []
  | source :: rest =>
      match assoc "url" source with
      | Some url => url :: urls_to_check rest
      | None => urls_to_check rest
      end
  end.

(** The comprehension that builds [verified_links]: one clock reading
    per url, starting at reading [n]. *)
Fixpoint verified_entries (env : Env) (n : nat) (urls : list pyval) : list dict :=
  match urls with
  | [] => []
  | url :: rest =>
      [ ("url", url); ("status", VStr "ACTIVE");
        ("checked_at", VStr (isoformat_utcnow env n)) ]
      :: verified_entries env (S n) rest
  end.

(** [link_verification_node] *)
Definition link_verification_node (env : Env) (state : AgentState) (w : World)
  : AgentState * World :=
  let state := append_message "[LINK VERIFICATION AGENT] Checking URLs..." state in
  let urls := urls_to_check (get (sources_found state) []) in
  let state := set_verified_links (verified_entries env (clock_reads w) urls) state in
  let w := mkWorld (requests w) (clock_reads w + length urls) in
  let state := set_broken_links [] state in
  let state := append_message
    ("[LINK VERIFICATION] Verified " ++ str_of_nat (length urls) ++ " links") state in
  let state := append_completed "links" state in
  (state, w).

(** [context_enrichment_node]: the decoded reply is stored as it is. *)
Definition context_enrichment_node (env : Env) (state : AgentState) (w : World)
  : result (AgentState * World) :=
  let state := append_message "[CONTEXT AGENT] Mapping current events..." state in
  '(text, w) <- create_message env w ;;
  context_data <- loads env text ;;
  let state := set_current_events_mapped context_data state in
  let state := append_message "[CONTEXT AGENT] Events mapped successfully" state in
  let state := append_completed "context" state in
  Ok (state, w).

(** [translation_node] *)
Definition translation_node (state : AgentState) : AgentState :=
  let state := append_message "[TRANSLATION AGENT] Processing translations..." state in
  let state := set_translations (Some
    [ ("hebrew_to_english", VDict []);
      ("english_to_hebrew", VDict []);
      ("chassidic_terms",
         VList [VStr "shleimus"; VStr "farbrengen"; VStr "sicha"; VStr "igros kodesh"]) ])
    state in
  let state := append_completed "translation" state in
  let state := append_message "[TRANSLATION AGENT] Translations complete" state in
  state.

Definition of_optional_str (o : option string) : pyval :=
  match o with
  | Some s => VStr s
  | None => VNone
  end.

(** The dict [final_output] that [completion_node] hands to [json.dumps]. *)
Definition completion_payload (state : AgentState) (generated_at : string) : dict :=
  [ ("task_type", VStr (task_type state));
    ("sources", VList (map VDict (get (sources_found state) [])));
    ("content", of_optional_str (get (english_content state) (Some "")));
    ("verified_links", VList (map VDict (get (verified_links state) [])));
    ("context", get (current_events_mapped state) (VDict []));
    ("generated_at", VStr generated_at) ].

(** [completion_node] *)
Definition completion_node (env : Env) (state : AgentState) (w : World)
  : AgentState * World :=
  let state := append_message "[COMPLETION] Assembling final output..." state in
  let '(now, w) := utcnow env w in
  let final_output := completion_payload state now in
  let state := set_final_output (Some (json_dumps env (VDict final_output))) state in
  let state := set_current_agent "done" state in
  (state, w).

(* ================================================================== *)
(** ** ROUTING LOGIC *)
(* ================================================================== *)

(** langgraph's [END] *)
Definition END : string := "__end__".

(** [should_continue] *)
Definition should_continue (state : AgentState) : string :=
  let current := current_agent state in
  if current =? "done" then END
  else if current =? "complete" then "completion"
  else current.

(* ================================================================== *)
(** ** GRAPH CONSTRUCTION *)
(* ================================================================== *)

(** What [workflow.add_node] registers: a function from state to state
    that may raise and may use the collaborators. *)
Definition node_fn : Type := AgentState -> World -> result (AgentState * World).

Definition pure_node (f : AgentState -> AgentState) : node_fn :=
  fun state w => Ok (f state, w).

Definition total_node (f : AgentState -> World -> AgentState * World) : node_fn :=
  fun state w => Ok (f state w).

(** The builder object [StateGraph(AgentState)] after the calls of
    [create_workflow]. *)
Record StateGraph : Type := mkGraph {
  nodes : list (string * node_fn);
  entry_point : string;
  conditional_edges : list (string * ((AgentState -> string) * list (string * string)));
  edges : list (string * string)
}.

(** [create_workflow] *)
Definition create_workflow (env : Env) : StateGraph :=
  mkGraph
    [ ("orchestrator", pure_node orchestrator_node);
      ("research", research_agent_node env);
      ("content", content_generation_node env);
      ("links", total_node (link_verification_node env));
      ("context", context_enrichment_node env);
      ("translation", pure_node translation_node);
      ("completion", total_node (completion_node env)) ]
    "orchestrator"
    [ ("orchestrator",
       (should_continue,
        [ ("research", "research");
          ("content", "content");
          ("links", "links");
          ("context", "context");
          ("translation", "translation");
          ("completion", "completion");
          (END, END) ])) ]
    (map (fun agent => (agent, "orchestrator"))
         ["research"; "content"; "links"; "context"; "translation"]
     ++ [("completion", END)]).

(** Running one node of the graph. *)
Definition exec_node (g : StateGraph) (n : string) (state : AgentState) (w : World)
  : result (AgentState * World) :=
  match assoc n (nodes g) with
  | Some f => f state w
  | None => Raise (KeyError n)
  end.

(** The node that follows [n]: a conditional edge evaluates its condition
    on the state that [n] returned and looks the answer up in its mapping
    (a plain dict subscript: an answer that is no key raises); otherwise
    the fixed edge is taken. *)
Definition successor (g : StateGraph) (n : string) (state : AgentState) : result string :=
  match assoc n (conditional_edges g) with
  | Some (condition, ends) =>
      match assoc (condition state) ends with
      | Some d => Ok d
      | None => Raise (KeyError (condition state))
      end
  | None =>
      match assoc n (edges g) with
      | Some d => Ok d
      | None => Raise (KeyError n)
      end
  end.

(** How a walk of the graph ends. *)
Inductive final : Type :=
| Done (state : AgentState) (w : World)
| Aborted (e : exn)
| OutOfFuel.

(** One entry per node that ran: its name and the [current_agent] it left. *)
Definition visit : Type := (string * string)%type.

(** The sequential walk of the graph from node [n], cut after [fuel]
    steps: run the node, record the visit, follow the edge, and stop at
    [END].  An exception raised by a node or by the edge lookup ends the
    walk. *)
Fixpoint run (fuel : nat) (g : StateGraph) (n : string) (state : AgentState) (w : World)
  : list visit * final :=
  match fuel with
  | O => ([], OutOfFuel)
  | S fuel' =>
      if n =? END then ([], Done state w)
      else
        match exec_node g n state w with
        | Raise e => ([], Aborted e)
        | Ok (state', w') =>
            let entry := (n, current_agent state') in
            match successor g n state' with
            | Raise e => ([entry], Aborted e)
            | Ok n' =>
                let (trace, r) := run fuel' g n' state' w' in
                (entry :: trace, r)
            end
        end
  end.

(* ================================================================== *)
(** ** MAIN EXECUTION *)
(* ================================================================== *)

(** [initial_state] of [run_orchestrator]; [timestamp] is the text of
    [datetime.utcnow().timestamp()]. *)
Definition initial_state (task_type user_input timestamp : string) : AgentState :=
  mkState (task_type ++ "_" ++ timestamp) task_type user_input "orchestrator"
    (Stored []) [] None (Stored None) None (Stored []) [] None (Stored VNone)
    None [] [] [] None.

(** The walk that [app.astream(initial_state, config)] drives. *)
Definition run_workflow (env : Env) (fuel : nat) (state : AgentState) (w : World)
  : list visit * final :=
  let workflow := create_workflow env in
  run fuel workflow (entry_point workflow) state w.

(** The states met by the walk: [reachable env n state w] says that the
    walk started by [run_orchestrator] is about to run node [n] on
    [state]. *)
Inductive reachable (env : Env) : string -> AgentState -> World -> Prop :=
| reach_entry : forall task_type user_input timestamp w,
    reachable env (entry_point (create_workflow env))
      (initial_state task_type user_input timestamp) w
| reach_next : forall n state w state' w' n',
    reachable env n state w ->
    n <> END ->
    exec_node (create_workflow env) n state w = Ok (state', w') ->
    successor (create_workflow env) n state' = Ok n' ->
    reachable env n' state' w'.

(** Invoking nodes by name, one after the other, in any order. *)
Fixpoint invoke_all (g : StateGraph) (names : list string) (state : AgentState) (w : World)
  : result (AgentState * World) :=
  match names with
  | [] => Ok (state, w)
  | n :: rest =>
      '(state', w') <- exec_node g n state w ;;
      invoke_all g rest state' w'
  end.

(** How often the router ran in a trace. *)
Definition router_invocations (trace : list visit) : nat :=
  length (filter (fun v => fst v =? "orchestrator") trace).

(* ================================================================== *)
(** ** The specification's vocabulary *)
(* ================================================================== *)

(** From the specification (4.1), in the code's names: the checklist of
    each declared task type. *)
Definition spec_required_steps (task_type : string) : option (list string) :=
  if task_type =? "farbrengen" then Some ["research"; "context"; "content"; "links"]
  else if task_type =? "source_lookup" then Some ["research"; "links"]
  else if task_type =? "dvar_torah" then Some ["research"; "content"; "translation"]
  else None.

(** From the specification (4.2): scan the checklist in declared order and
    return the first entry not present in the completed steps, or the
    terminal marker. *)
Fixpoint spec_next_step (checklist completed : list string) : string :=
  match checklist with
  | [] => "complete"
  | step :: rest =>
      if mem step completed then spec_next_step rest completed else step
  end.

(** The names of the five step executors. *)
Definition step_names : list string :=
  ["research"; "context"; "content"; "links"; "translation"].

(** The checklist entries still to run. *)
Definition missing (cl completed : list string) : nat :=
  length (filter (fun s => negb (mem s completed)) cl).

(** The visits of a walk that runs every step of [checklist] in order. *)
Definition expected_trace (checklist : list string) : list visit :=
  flat_map (fun step => [("orchestrator", step); (step, step)]) checklist
  ++ [("orchestrator", "complete"); ("completion", "done")].

(** The output field owned by each step has been populated. *)
Definition has_sources (state : AgentState) : bool :=
  match sources_found state with Stored (_ :: _) => true | _ => false end.

Definition has_content (state : AgentState) : bool :=
  match english_content state with Stored (Some _) => true | _ => false end.

Definition has_links (state : AgentState) : bool :=
  match verified_links state with Stored (_ :: _) => true | _ => false end.

Definition has_context (state : AgentState) : bool :=
  match current_events_mapped state with
  | Missing | Stored VNone => false
  | Stored _ => true
  end.

Definition has_translations (state : AgentState) : bool :=
  match translations state with Some _ => true | None => false end.

(** Every stored source has a ["citation"] key, as [sources_text] needs. *)
Definition sources_cited (state : AgentState) : bool :=
  forallb (has_key "citation") (get (sources_found state) []).

(** The reply to some request decoded to [v]. *)
Definition decoded_reply (env : Env) (v : pyval) : Prop :=
  exists n text, reply env n = Some text /\ json_loads env text = Some v.

(** Every request is answered with text that decodes as JSON. *)
Definition responsive (env : Env) : Prop :=
  forall n, exists text v, reply env n = Some text /\ json_loads env text = Some v.

(** What the executor of [step] needs of the reply to request [n]:
    [research_agent_node] and [context_enrichment_node] pass the text to
    [json.loads], [content_generation_node] stores the text as it is, and
    the other executors send no request. *)
Definition step_reply_ok (env : Env) (step : string) (n : nat) : Prop :=
  if (step =? "research") || (step =? "context") then
    exists text v, reply env n = Some text /\ json_loads env text = Some v
  else if step =? "content" then exists text, reply env n = Some text
  else True.

(** The requests that the executor of [step] sends. *)
Definition step_requests (step : string) : nat :=
  if (step =? "research") || (step =? "context") || (step =? "content")
  then 1 else 0.

(** The replies are what the executors of [steps] need, when they run
    one after the other and the first request has number [n]. *)
Fixpoint replies_suffice (env : Env) (steps : list string) (n : nat) : Prop :=
  match steps with
  | [] => True
  | step :: rest =>
      step_reply_ok env step n
      /\ replies_suffice env rest (n + step_requests step)
  end.

(** The invariant of the data model as the code keeps it: a step is in
    [completed_agents] exactly when its output field is populated, for
    research, content, links and translation; a set
    [current_events_mapped] means that the context step is complete, and
    a complete context step means that [current_events_mapped] holds a
    decoded reply; no step is recorded twice. *)
Definition outputs_match (env : Env) (state : AgentState) : Prop :=
  (In "research" (completed_agents state) <-> has_sources state = true)
  /\ (In "content" (completed_agents state) <-> has_content state = true)
  /\ (In "links" (completed_agents state) <-> has_links state = true)
  /\ (In "translation" (completed_agents state) <-> has_translations state = true)
  /\ (has_context state = true -> In "context" (completed_agents state))
  /\ (In "context" (completed_agents state) ->
      exists v, current_events_mapped state = Stored v /\ decoded_reply env v)
  /\ NoDup (completed_agents state).

(** The invariant as the specification words it, with an equivalence for
    the context step too. *)
Definition outputs_match_claimed (state : AgentState) : Prop :=
  (In "research" (completed_agents state) <-> has_sources state = true)
  /\ (In "content" (completed_agents state) <-> has_content state = true)
  /\ (In "links" (completed_agents state) <-> has_links state = true)
  /\ (In "context" (completed_agents state) <-> has_context state = true)
  /\ (In "translation" (completed_agents state) <-> has_translations state = true)
  /\ NoDup (completed_agents state).

(** What holds whenever the walk is about to run node [n]. *)
Definition walk_inv (env : Env) (n : string) (state : AgentState) : Prop :=
  outputs_match env state
  /\ (sources_found state = Stored [] \/ sources_found state = Stored [found_source])
  /\ (spec_required_steps (task_type state) = None ->
      n = "orchestrator" /\ current_agent state = "orchestrator")
  /\ (n = "orchestrator" \/ n = "completion" \/ n = END
      \/ (In n step_names
          /\ ~ In n (completed_agents state)
          /\ (n = "links" -> In "research" (completed_agents state)))).

(* ================================================================== *)
(** ** Sample collaborators and states *)
(* ================================================================== *)

(** Replies [{}] to every request. *)
Definition obliging_env : Env :=
  mkEnv (fun _ => Some "{}")
        (fun text => if text =? "{}" then Some (VDict []) else None)
        (fun _ => "<json>")
        (fun _ => "2024-01-01T00:00:00").

(** Replies [null] to every request. *)
Definition null_env : Env :=
  mkEnv (fun _ => Some "null")
        (fun text => if text =? "null" then Some VNone else None)
        (fun _ => "<json>")
        (fun _ => "2024-01-01T00:00:00").

(** Replies [{}] to every request but the third, which it answers with
    a talk in prose that [json.loads] rejects. *)
Definition prose_env : Env :=
  mkEnv (fun n => match n with
                  | 2 => Some "Opening (1 minute): the lights of Chanukah"
                  | _ => Some "{}"
                  end)
        (fun text => if text =? "{}" then Some (VDict []) else None)
        (fun _ => "<json>")
        (fun _ => "2024-01-01T00:00:00").

Definition world0 : World := mkWorld 0 0.

(** [run_orchestrator("source_lookup", ...)] after the router and the
    research step have run once each. *)
Definition research_only_state : AgentState :=
  mkState "source_lookup_0.0" "source_lookup" "Hermon" "research"
    (Stored [found_source]) [] None (Stored None) None (Stored []) [] None
    (Stored VNone) None
    [ "[ORCHESTRATOR] Starting task: source_lookup";
      "[RESEARCH AGENT] Starting source search...";
      "[RESEARCH AGENT] Found 1 sources" ]
    ["research"] [] None.

(** A [farbrengen] state in which ["content"] was marked complete before
    ["context"] ran. *)
Definition preset_content_state : AgentState :=
  mkState "farbrengen_0.0" "farbrengen" "Hermon" "research"
    (Stored [found_source]) [] None (Stored None) None (Stored []) [] None
    (Stored VNone) None [] ["research"; "content"] [] None.

(** The initial state of [run_orchestrator] for the undeclared task type
    ["shiur"]. *)
Definition shiur_state : AgentState := initial_state "shiur" "Hermon" "0.0".

(* ================================================================== *)
(** ** [run_orchestrator] and the edges of the router *)
(* ================================================================== *)

(** What a call of [run_orchestrator] comes to: the value of
    [final_state.get("final_output")], an exception, or a walk that the
    fuel cut. *)
Inductive outcome : Type :=
| Returned (output : option string)
| Raised (e : exn)
| StillRunning.

(** [run_orchestrator]: build the initial state, walk the workflow and
    return [final_output]; printing is left out. *)
Definition run_orchestrator (env : Env) (fuel : nat)
    (task_type user_input timestamp : string) (w : World) : outcome :=
  match snd (run_workflow env fuel (initial_state task_type user_input timestamp) w) with
  | Done final_state _ => Returned (final_output final_state)
  | Aborted e => Raised e
  | OutOfFuel => StillRunning
  end.

(** The values of [current_agent] for which [should_continue] answers
    with a key of the conditional edges. *)
Definition routable : list string :=
  ["research"; "content"; "links"; "context"; "translation";
   "complete"; "completion"; "done"; END].

(** The output fields and bookkeeping fields that a node may own. *)
Definition same_unowned_fields (n : string) (st st' : AgentState) : Prop :=
  (n <> "research" -> sources_found st' = sources_found st)
  /\ (n <> "content" -> english_content st' = english_content st)
  /\ (n <> "links" ->
      verified_links st' = verified_links st /\ broken_links st' = broken_links st)
  /\ (n <> "context" -> current_events_mapped st' = current_events_mapped st)
  /\ (n <> "translation" -> translations st' = translations st)
  /\ (n <> "completion" -> final_output st' = final_output st)
  /\ (n <> "orchestrator" -> n <> "completion" -> current_agent st' = current_agent st).

(** The fields that no node assigns. *)
Definition same_untouched_fields (st st' : AgentState) : Prop :=
  citations st' = citations st
  /\ hebrew_content st' = hebrew_content st
  /\ structure st' = structure st
  /\ rebbe_prophecies st' = rebbe_prophecies st
  /\ errors st' = errors st.

(** The visits of the steps [steps], each after the router selected it. *)
Definition step_visits (steps : list string) : list visit :=
  flat_map (fun step => [("orchestrator", step); (step, step)]) steps.

(** The entry that [link_verification_node] makes for the source of
    [research_agent_node], checked at clock reading [n]. *)
Definition found_link (env : Env) (n : nat) : dict :=
  [ ("url", VStr "https://www.chabad.org/therebbe/article_cdo/aid/4463154");
    ("status", VStr "ACTIVE");
    ("checked_at", VStr (isoformat_utcnow env n)) ].

(** The text that [completion_node] stores for a walk that ran the
    research step. *)
Definition report (env : Env) (task_type : string) (content : pyval)
    (links : list dict) (context : pyval) (generated_at : nat) : string :=
  json_dumps env (VDict
    [ ("task_type", VStr task_type);
      ("sources", VList [VDict found_source]);
      ("content", content);
      ("verified_links", VList (map VDict links));
      ("context", context);
      ("generated_at", VStr (isoformat_utcnow env generated_at)) ]).

(** The fields that [completion_node] reads besides [task_type]. *)
Definition report_fields (state : AgentState)
  : slot (list dict) * slot (option string) * slot (list dict) * slot pyval :=
  (sources_found state, english_content state, verified_links state,
   current_events_mapped state).

(** Answers the first request and fails the second. *)
Definition failing_env : Env :=
  mkEnv (fun n => match n with O => Some "{}" | S _ => None end)
        (fun text => if text =? "{}" then Some (VDict []) else None)
        (fun _ => "<json>")
        (fun _ => "2024-01-01T00:00:00").

(** A [shiur] state that a checkpoint could hand back with
    [current_agent] at a step name. *)
Definition shiur_state_translation : AgentState :=
  set_current_agent "translation" shiur_state.

(* ================================================================== *)
(** ** scripts/upload_to_supabase.py *)
(* ================================================================== *)

(** The exceptions of the upload script: the ones Python raises on the
    decoded JSON it walks through, [UFileError] for [open] and
    [json.load], [UAPIError] for [.execute()]. *)
Inductive upload_exn : Type :=
| UKeyError (key : string)
| UTypeError
| UAttributeError
| UIndexError
| UFileError
| UAPIError.

Inductive uresult (A : Type) : Type :=
| UOk (a : A)
| URaise (e : upload_exn).
Arguments UOk {A} a.
Arguments URaise {A} e.

(** A request built with [supabase.table(table)] and sent by [.execute()]. *)
Inductive request : Type :=
| Upsert (table : string) (payload : pyval)
| Insert (table : string) (payload : pyval).

(** What [.execute()] returns. *)
Inductive api_response : Type :=
| ApiResponse (data : pyval).

(** What the script calls outside the repository: the collaborators of
    the orchestrator ([json.dumps] and the clock are used here too),
    Python's [str.split()] and [str.lower()], the outcome of the [n]-th
    [.execute()] ([None] when it raises) and the outcome of opening a file
    and decoding it with [json.load] ([None] when either raises). *)
Record Host : Type := mkHost {
  host_env : Env;
  str_split : string -> list string;
  str_lower : string -> string;
  execute : nat -> option api_response;
  json_load_file : string -> option pyval
}.

(** The requests issued so far, in order, and the clock readings taken. *)
Record Store : Type := mkStore {
  issued : list request;
  clock : nat
}.

(** Code that may raise and that changes the store. *)
Definition U (A : Type) : Type := Store -> uresult A * Store.

Definition uret {A : Type} (a : A) : U A := fun s => (UOk a, s).

Definition ubind {A B : Type} (m : U A) (k : A -> U B) : U B :=
  fun s =>
    match m s with
    | (UOk a, s') => k a s'
    | (URaise e, s') => (URaise e, s')
    end.

Definition lift {A : Type} (r : uresult A) : U A := fun s => (r, s).

Notation "x <~ m ;; k" := (ubind m (fun x => k))
  (at level 61, m at next level, right associativity).

(** [v[key]] for a string [key] *)
Definition subscript (v : pyval) (key : string) : uresult pyval :=
  match v with
  | VDict d =>
      match assoc key d with
      | Some x => UOk x
      | None => URaise (UKeyError key)
      end
  | _ => URaise UTypeError
  end.

(** [v.get(key, default)]: only a dict has the method. *)
Definition py_get (v : pyval) (key : string) (default : pyval) : uresult pyval :=
  match v with
  | VDict d =>
      match assoc key d with
      | Some x => UOk x
      | None => UOk default
      end
  | _ => URaise UAttributeError
  end.

(** [for x in v]: a list yields its elements, a dict its keys, a str its
    characters. *)
Definition py_iter (v : pyval) : uresult (list pyval) :=
  match v with
  | VList l => UOk l
  | VDict d => UOk (map (fun kv => VStr (fst kv)) d)
  | VStr s => UOk (map (fun c => VStr (String c EmptyString)) (list_ascii_of_string s))
  | _ => URaise UTypeError
  end.

(** [v == literal] for a str literal *)
Definition py_eq_str (v : pyval) (literal : string) : bool :=
  match v with
  | VStr s => String.eqb s literal
  | _ => false
  end.

(** [needle in hay] for two strs *)
Fixpoint str_contains (needle hay : string) : bool :=
  if String.prefix needle hay then true
  else match hay with
       | EmptyString => false
       | String _ rest => str_contains needle rest
       end.

(** [key in v] for a str [key] *)
Definition py_contains (key : string) (v : pyval) : uresult bool :=
  match v with
  | VDict d => UOk (has_key key d)
  | VList l => UOk (existsb (fun x => py_eq_str x key) l)
  | VStr s => UOk (str_contains key s)
  | _ => URaise UTypeError
  end.

(** [v.split()[0].lower()] *)
Definition first_word_lower (host : Host) (v : pyval) : uresult pyval :=
  match v with
  | VStr s =>
      match str_split host s with
      | [] => URaise UIndexError
      | word :: _ => UOk (VStr (str_lower host word))
      end
  | _ => URaise UAttributeError
  end.

(** [datetime.utcnow().isoformat()] *)
Definition unow (host : Host) : U string :=
  fun s => (UOk (isoformat_utcnow (host_env host) (clock s)),
            mkStore (issued s) (S (clock s))).

(** [supabase.table(...).upsert(...).execute()] and
    [supabase.table(...).insert(...).execute()] *)
Definition send (host : Host) (r : request) : U api_response :=
  fun s =>
    (match execute host (length (issued s)) with
     | Some response => UOk response
     | None => URaise UAPIError
     end,
     mkStore (issued s ++ [r]) (clock s)).

(** The dict appended to [sources_to_upload] for one source. *)
Definition source_row (host : Host) (conversation_data source : pyval) : U dict :=
  name <~ lift (py_get source "source" (VStr "")) ;;
  source_type <~ lift (first_word_lower host name) ;;
  citation <~ lift (py_get source "source" (VStr "")) ;;
  content <~ lift (py_get source "quote" (VStr "")) ;;
  url <~ lift (py_get source "url" (VStr "")) ;;
  page_reference <~ lift (py_get source "page_reference" (VStr "")) ;;
  verified_at <~ unow host ;;
  conversation_id <~ lift (subscript conversation_data "conversation_id") ;;
  uret [ ("source_type", source_type);
         ("citation", citation);
         ("content", content);
         ("url", url);
         ("page_reference", page_reference);
         ("verified_at", VStr verified_at);
         ("conversation_id", conversation_id) ].

(** The inner loop of [upload_sources]. *)
Fixpoint rows_of_sources (host : Host) (conversation_data : pyval)
    (sources : list pyval) : U (list dict) :=
  match sources with
  | [] => uret []
  | source :: rest =>
      row <~ source_row host conversation_data source ;;
      rows <~ rows_of_sources host conversation_data rest ;;
      uret (row :: rows)
  end.

(** The outer loop of [upload_sources]. *)
Fixpoint rows_of_turns (host : Host) (conversation_data : pyval)
    (turns : list pyval) : U (list dict) :=
  match turns with
  | [] => uret []
  | turn :: rest =>
      type <~ lift (py_get turn "type" VNone) ;;
      rows <~ (if py_eq_str type "halachic_source_compilation" then
                 provided <~ lift (py_get turn "sources_provided" (VList [])) ;;
                 sources <~ lift (py_iter provided) ;;
                 rows_of_sources host conversation_data sources
               else uret []) ;;
      more <~ rows_of_turns host conversation_data rest ;;
      uret (rows ++ more)
  end.

(** [upload_sources]; printing is left out. *)
Definition upload_sources (host : Host) (conversation_data : pyval)
  : U (option api_response) :=
  flow <~ lift (subscript conversation_data "conversation_flow") ;;
  turns <~ lift (py_iter flow) ;;
  sources_to_upload <~ rows_of_turns host conversation_data turns ;;
  match sources_to_upload with
  | [] => uret None
  | _ :: _ =>
      response <~ send host (Upsert "sources" (VList (map VDict sources_to_upload))) ;;
      uret (Some response)
  end.

(** The row that [upload_generated_content] inserts. *)
Definition generated_content_row (host : Host)
    (structure sources created_at conversation_id location : pyval) : pyval :=
  VDict
    [ ("content_type", VStr "farbrengen");
      ("hebrew_text", VStr "");
      ("english_text", VStr (json_dumps (host_env host) structure));
      ("sources", sources);
      ("created_at", created_at);
      ("conversation_id", conversation_id);
      ("metadata",
       VDict [ ("duration", VStr "2x5 minutes");
               ("audience", VStr "young bochurim");
               ("location", location) ]) ].

(** [upload_generated_content]; printing is left out. *)
Definition upload_generated_content (host : Host) (conversation_data : pyval)
  : U (option api_response) :=
  deliverables <~ lift (py_get conversation_data "final_deliverables" (VDict [])) ;;
  present <~ lift (py_contains "farbrengen_structure" deliverables) ;;
  if present then
    structure <~ lift (subscript deliverables "farbrengen_structure") ;;
    sources <~ lift (py_get deliverables "sources_compiled" (VDict [])) ;;
    created_at <~ lift (subscript conversation_data "created_at") ;;
    conversation_id <~ lift (subscript conversation_data "conversation_id") ;;
    location <~ lift (py_get conversation_data "location" (VStr "")) ;;
    response <~ send host
      (Insert "generated_content"
         (generated_content_row host structure sources created_at conversation_id
            location)) ;;
    uret (Some response)
  else uret None.

(** The comprehension [[agent["speaker"] for agent in ...]]. *)
Fixpoint speakers (agents : list pyval) : uresult (list pyval) :=
  match agents with
  | [] => UOk []
  | agent :: rest =>
      match subscript agent "speaker" with
      | UOk speaker =>
          match speakers rest with
          | UOk more => UOk (speaker :: more)
          | URaise e => URaise e
          end
      | URaise e => URaise e
      end
  end.

(** The row that [upload_conversation] upserts. *)
Definition conversation_row
    (id created_at topic conversation_data : pyval) (agents_used : list pyval)
    (metadata : pyval) : pyval :=
  VDict
    [ ("id", id);
      ("created_at", created_at);
      ("topic", topic);
      ("chat_content", conversation_data);
      ("agents_used", VList agents_used);
      ("metadata", metadata) ].

(** [upload_conversation]: the three [print] calls are kept for the
    subscripts their f-strings evaluate. *)
Definition upload_conversation (host : Host) (conversation_file : string)
  : U api_response :=
  conversation_data <~ lift (match json_load_file host conversation_file with
                             | Some v => UOk v
                             | None => URaise UFileError
                             end) ;;
  id <~ lift (subscript conversation_data "conversation_id") ;;
  created_at <~ lift (subscript conversation_data "created_at") ;;
  topic <~ lift (subscript conversation_data "topic") ;;
  flow <~ lift (subscript conversation_data "conversation_flow") ;;
  agents <~ lift (py_iter flow) ;;
  agents_used <~ lift (speakers agents) ;;
  metadata <~ lift (py_get conversation_data "metadata" (VDict [])) ;;
  response <~ send host
    (Upsert "conversations"
       (conversation_row id created_at topic conversation_data agents_used metadata)) ;;
  _ <~ lift (subscript conversation_data "conversation_id") ;;
  _ <~ lift (subscript conversation_data "topic") ;;
  logged <~ lift (subscript conversation_data "metadata") ;;
  _ <~ lift (subscript logged "total_turns") ;;
  uret response.

(** The sources that the turns of type ["halachic_source_compilation"]
    provide in a list. *)
Definition provided_sources (turn : pyval) : list pyval :=
  match turn with
  | VDict d =>
      match assoc "type" d with
      | Some (VStr t) =>
          if String.eqb t "halachic_source_compilation" then
            match assoc "sources_provided" d with
            | Some (VList l) => l
            | _ => []
            end
          else []
      | _ => []
      end
  | _ => []
  end.

(** The value of [source.get(key, "")] for a source that is a dict. *)
Definition source_field (key : string) (source : pyval) : pyval :=
  match source with
  | VDict d => match assoc key d with Some x => x | None => VStr "" end
  | _ => VStr ""
  end.

Definition is_dict (v : pyval) : Prop := exists d, v = VDict d.

(** [d.get(key, default)] for a dict [d] *)
Definition dict_get (d : dict) (key : string) (default : pyval) : pyval :=
  match assoc key d with
  | Some x => x
  | None => default
  end.

(** The keys that [upload_conversation] subscripts before its request,
    in the order in which it does. *)
Definition conversation_keys : list string :=
  ["conversation_id"; "created_at"; "topic"; "conversation_flow"].

(** Code that issues no request: it leaves [issued] alone and does not
    raise [UAPIError]. *)
Definition quiet {A : Type} (m : U A) : Prop :=
  forall s, issued (snd (m s)) = issued s /\ fst (m s) <> URaise UAPIError.

(** A row built by [upload_sources] for the conversation [conversation_data]. *)
Definition row_of_conversation (conversation_data : pyval) (row : dict) : Prop :=
  exists conversation_id,
    subscript conversation_data "conversation_id" = UOk conversation_id
    /\ assoc "conversation_id" row = Some conversation_id.

(** A host whose requests succeed, with a [split] and a [lower] that
    agree with Python's on the strings used below. *)
Definition sample_host : Host :=
  mkHost obliging_env
    (fun s => if String.eqb s "" then [] else [s])
    (fun s => s)
    (fun n => Some (ApiResponse (VList [])))
    (fun file => if String.eqb file "conversation.json"
                 then Some (VDict [ ("conversation_id", VStr "c1");
                                    ("created_at", VStr "2024-12-19");
                                    ("topic", VStr "chanukah");
                                    ("conversation_flow",
                                     VList [VDict [("speaker", VStr "rebbe")]]) ])
                 else None).

Definition store0 : Store := mkStore [] 0.

(** A conversation with one turn that provides one source without a
    ["source"] key. *)
Definition nameless_source_conversation : pyval :=
  VDict [ ("conversation_id", VStr "c1");
          ("conversation_flow",
           VList [VDict [ ("type", VStr "halachic_source_compilation");
                          ("sources_provided",
                           VList [VDict [("quote", VStr "q")]]) ]]) ].

(** A conversation with one turn that provides one source. *)
Definition one_source_conversation : pyval :=
  VDict [ ("conversation_id", VStr "c1");
          ("conversation_flow",
           VList [VDict [ ("type", VStr "halachic_source_compilation");
                          ("sources_provided",
                           VList [VDict [("source", VStr "sicha")]]) ]]) ].

(* ================================================================== *)
(** ** Basic facts *)
(* ================================================================== *)

Lemma mem_In (x : string) (l : list string) : mem x l = true <-> In x l.
Proof.
  unfold mem. rewrite existsb_exists. split.
  - intros (y & Hy & E). apply String.eqb_eq in E. now subst.
  - intro H. exists x. split; [assumption | apply String.eqb_refl].
Qed.

Lemma mem_false_In (x : string) (l : list string) : mem x l = false <-> ~ In x l.
Proof.
  rewrite <- mem_In. destruct (mem x l); split; congruence.
Qed.

Lemma mem_app (x : string) (l1 l2 : list string) :
  mem x (l1 ++ l2) = mem x l1 || mem x l2.
Proof. unfold mem. apply existsb_app. Qed.

(** The three declared task types, and nothing else, have a checklist. *)
Lemma spec_required_steps_cases (tt : string) (cl : list string) :
  spec_required_steps tt = Some cl ->
  (tt = "farbrengen" /\ cl = ["research"; "context"; "content"; "links"])
  \/ (tt = "source_lookup" /\ cl = ["research"; "links"])
  \/ (tt = "dvar_torah" /\ cl = ["research"; "content"; "translation"]).
Proof.
  unfold spec_required_steps.
  destruct (String.eqb_spec tt "farbrengen");
    [intros [= <-]; auto |].
  destruct (String.eqb_spec tt "source_lookup");
    [intros [= <-]; auto |].
  destruct (String.eqb_spec tt "dvar_torah");
    [intros [= <-]; auto 6 | discriminate].
Qed.

(** The router only appends a message and, at most, assigns
    [current_agent]. *)
Lemma orchestrator_node_frame (st : AgentState) :
  orchestrator_node st
  = set_current_agent (current_agent (orchestrator_node st))
      (append_message ("[ORCHESTRATOR] Starting task: " ++ task_type st) st).
Proof.
  unfold orchestrator_node.
  repeat match goal with
         | |- context [if ?b then _ else _] => destruct b
         end; reflexivity.
Qed.

Lemma orchestrator_node_task_type (st : AgentState) :
  task_type (orchestrator_node st) = task_type st.
Proof. rewrite orchestrator_node_frame. reflexivity. Qed.

Lemma orchestrator_node_completed (st : AgentState) :
  completed_agents (orchestrator_node st) = completed_agents st.
Proof. rewrite orchestrator_node_frame. reflexivity. Qed.

(** On a declared task type the router computes the specification's
    [spec_next_step]. *)
Lemma orchestrator_node_selects (st : AgentState) (cl : list string) :
  spec_required_steps (task_type st) = Some cl ->
  current_agent (orchestrator_node st) = spec_next_step cl (completed_agents st).
Proof.
  intro H. apply spec_required_steps_cases in H.
  unfold orchestrator_node.
  destruct H as [[-> ->] | [[-> ->] | [-> ->]]]; cbn [String.eqb Ascii.eqb Bool.eqb];
    cbn [spec_next_step];
    repeat match goal with
           | |- context [mem ?s ?l] => destruct (mem s l)
           end; reflexivity.
Qed.

(** On any other task type the router leaves [current_agent] alone. *)
Lemma orchestrator_node_unknown (st : AgentState) :
  spec_required_steps (task_type st) = None ->
  current_agent (orchestrator_node st) = current_agent st.
Proof.
  unfold spec_required_steps, orchestrator_node.
  destruct (task_type st =? "farbrengen"); [discriminate |].
  destruct (task_type st =? "source_lookup"); [discriminate |].
  destruct (task_type st =? "dvar_torah"); [discriminate |].
  reflexivity.
Qed.

Lemma spec_next_step_first (pre post completed : list string) (s : string) :
  (forall x, In x pre -> In x completed) ->
  ~ In s completed ->
  spec_next_step (pre ++ s :: post) completed = s.
Proof.
  intros Hpre Hs. induction pre as [| p pre IH]; cbn [app spec_next_step].
  - apply mem_false_In in Hs. now rewrite Hs.
  - assert (Hp : mem p completed = true) by (apply mem_In, Hpre; now left).
    rewrite Hp. apply IH. intros x Hx. apply Hpre. now right.
Qed.

Lemma spec_next_step_all (cl completed : list string) :
  (forall x, In x cl -> In x completed) ->
  spec_next_step cl completed = "complete".
Proof.
  induction cl as [| c cl IH]; intro H; cbn [spec_next_step]; [reflexivity |].
  assert (Hc : mem c completed = true) by (apply mem_In, H; now left).
  rewrite Hc. apply IH. intros x Hx. apply H. now right.
Qed.

(* ================================================================== *)
(** ** The router *)
(* ================================================================== *)

(** C3: on a declared task type the router sets [current_agent] to the
    first checklist entry that is not a member of [completed_agents], and
    to ["complete"] when every entry is a member.  The test is membership,
    not position: ["content"] is never selected once it is a member, and a
    [farbrengen] state holding ["research"] and a pre-set ["content"] but
    not ["context"] is routed to ["context"]. *)
Theorem router_selects_first_missing_step :
  forall (st : AgentState) (cl : list string),
    spec_required_steps (task_type st) = Some cl ->
    (forall pre s post,
        cl = pre ++ s :: post ->
        (forall x, In x pre -> In x (completed_agents st)) ->
        ~ In s (completed_agents st) ->
        current_agent (orchestrator_node st) = s)
    /\ ((forall x, In x cl -> In x (completed_agents st)) ->
        current_agent (orchestrator_node st) = "complete")
    /\ (In "content" (completed_agents st) ->
        current_agent (orchestrator_node st) <> "content")
    /\ (task_type st = "farbrengen" ->
        In "research" (completed_agents st) ->
        In "content" (completed_agents st) ->
        ~ In "context" (completed_agents st) ->
        current_agent (orchestrator_node st) = "context").
Proof.
  intros st cl Hcl.
  pose proof (orchestrator_node_selects st cl Hcl) as Hsel.
  repeat split.
  - intros pre s post -> Hpre Hs. rewrite Hsel. now apply spec_next_step_first.
  - intro Hall. rewrite Hsel. now apply spec_next_step_all.
  - intros Hin Heq. apply mem_In in Hin.
    apply spec_required_steps_cases in Hcl.
    rewrite Hsel in Heq.
    destruct Hcl as [[_ ->] | [[_ ->] | [_ ->]]]; cbn [spec_next_step] in Heq;
      rewrite ?Hin in Heq;
      repeat match type of Heq with
             | context [mem ?s ?l] => destruct (mem s l)
             end; discriminate.
  - intros Htt Hr Hc Hx. rewrite Hsel.
    rewrite Htt in Hcl. cbn in Hcl. injection Hcl as <-.
    apply (spec_next_step_first ["research"] ["content"; "links"]); [| assumption].
    intros x [<- | []]. assumption.
Qed.

Lemma router_selects_first_missing_step_witness :
  spec_required_steps (task_type preset_content_state)
  = Some ["research"; "context"; "content"; "links"]
  /\ current_agent (orchestrator_node preset_content_state) = "context".
Proof.
  split; [reflexivity |].
  apply (router_selects_first_missing_step preset_content_state
           ["research"; "context"; "content"; "links"] eq_refl).
  - reflexivity.
  - cbn. auto.
  - cbn. auto.
  - cbn. intros [H | [H | []]]; discriminate H.
Defined.

(** Applying the router to its own result selects the same agent again,
    on every state. *)
Lemma orchestrator_node_idempotent (st : AgentState) :
  current_agent (orchestrator_node (orchestrator_node st))
  = current_agent (orchestrator_node st).
Proof.
  destruct (spec_required_steps (task_type st)) as [cl |] eqn:Hcl.
  - rewrite (orchestrator_node_selects (orchestrator_node st) cl)
      by (now rewrite orchestrator_node_task_type).
    rewrite orchestrator_node_completed.
    symmetry. now apply orchestrator_node_selects.
  - apply orchestrator_node_unknown. now rewrite orchestrator_node_task_type.
Qed.


(** C2 (the code departs from the claim): on the undeclared task type
    ["shiur"] the router assigns nothing, so from the initial state of
    [run_orchestrator] it leaves [current_agent] at ["orchestrator"];
    [should_continue] answers ["orchestrator"], which is no key of the
    conditional edges, and the walk aborts after the router's first run
    without reaching the completion node. *)
Theorem unknown_task_type_leaves_current_agent :
  forall (env : Env) (user_input timestamp : string) (w : World) (fuel : nat),
    spec_required_steps (task_type (initial_state "shiur" user_input timestamp)) = None
    /\ current_agent (orchestrator_node (initial_state "shiur" user_input timestamp))
       = "orchestrator"
    /\ should_continue (orchestrator_node (initial_state "shiur" user_input timestamp))
       = "orchestrator"
    /\ run_workflow env (S fuel) (initial_state "shiur" user_input timestamp) w
       = ([("orchestrator", "orchestrator")], Aborted (KeyError "orchestrator")).
Proof.
  intros env ui ts w fuel. repeat split.
Qed.

(* ================================================================== *)
(** ** What a node changes *)
(* ================================================================== *)

Ltac node_cases name :=
  cbn [assoc nodes create_workflow];
  repeat match goal with
         | |- context [String.eqb name ?lit] =>
             destruct (String.eqb_spec name lit); [subst name |]
         end.

Ltac run_node :=
  unfold pure_node, total_node, research_agent_node, content_generation_node,
    context_enrichment_node, link_verification_node, translation_node,
    completion_node, utcnow, create_message, loads, sources_text_ok, bind;
  repeat match goal with
         | |- context [match ?x with _ => _ end] => destruct x
         end;
  try discriminate.

(** Every node keeps the identity fields and either leaves
    [completed_agents] as it is or appends its own name. *)
Lemma exec_node_effect (env : Env) (n : string) (st st' : AgentState) (w w' : World) :
  exec_node (create_workflow env) n st w = Ok (st', w') ->
  task_id st' = task_id st
  /\ task_type st' = task_type st
  /\ user_input st' = user_input st
  /\ (completed_agents st' = completed_agents st
      \/ completed_agents st' = completed_agents st ++ [n]).
Proof.
  unfold exec_node. node_cases n; try discriminate.
  - intros [= <- <-]. rewrite orchestrator_node_frame. cbn. auto.
  - run_node. intros [= <- <-]. cbn. auto.
  - run_node. intros [= <- <-]. cbn. auto.
  - run_node. intros [= <- <-]. cbn. auto.
  - run_node. intros [= <- <-]. cbn. auto.
  - run_node. intros [= <- <-]. cbn. auto.
  - run_node. intros [= <- <-]. cbn. auto.
Qed.

(** C7: every node of the workflow (the router, the five step executors
    and the completion assembler) returns a state with the [task_id],
    [task_type] and [user_input] it was given. *)
Theorem nodes_preserve_identity_fields :
  forall (env : Env) (name : string) (f : node_fn) (st st' : AgentState) (w w' : World),
    assoc name (nodes (create_workflow env)) = Some f ->
    f st w = Ok (st', w') ->
    task_id st' = task_id st
    /\ task_type st' = task_type st
    /\ user_input st' = user_input st.
Proof.
  intros env name f st st' w w' Hf Hrun.
  assert (H : exec_node (create_workflow env) name st w = Ok (st', w'))
    by (unfold exec_node; now rewrite Hf).
  apply exec_node_effect in H. tauto.
Qed.

Lemma nodes_preserve_identity_fields_witness :
  assoc "completion" (nodes (create_workflow obliging_env))
  = Some (total_node (completion_node obliging_env))
  /\ total_node (completion_node obliging_env) research_only_state world0
     = Ok (completion_node obliging_env research_only_state world0)
  /\ task_id (fst (completion_node obliging_env research_only_state world0))
     = "source_lookup_0.0"
  /\ task_type (fst (completion_node obliging_env research_only_state world0))
     = "source_lookup"
  /\ user_input (fst (completion_node obliging_env research_only_state world0))
     = "Hermon".
Proof.
  split; [reflexivity |]. split; [reflexivity |].
  apply (nodes_preserve_identity_fields obliging_env "completion"
           (total_node (completion_node obliging_env))
           research_only_state _ world0
           (snd (completion_node obliging_env research_only_state world0)));
    reflexivity.
Defined.

(** C6: across every sequence of node invocations [completed_agents] is
    append-only: the list before is a prefix of the list after, so its
    length never decreases and nothing is removed or reordered. *)
Theorem completed_agents_append_only :
  forall (env : Env) (names : list string) (st st' : AgentState) (w w' : World),
    invoke_all (create_workflow env) names st w = Ok (st', w') ->
    (exists suffix, completed_agents st' = completed_agents st ++ suffix)
    /\ length (completed_agents st) <= length (completed_agents st').
Proof.
  intros env names.
  induction names as [| n names IH]; intros st st' w w' H; cbn [invoke_all] in H.
  - injection H as <- <-. split; [exists []; now rewrite app_nil_r | lia].
  - unfold bind in H.
    destruct (exec_node (create_workflow env) n st w) as [[st1 w1] | e] eqn:Hn;
      [| discriminate].
    apply exec_node_effect in Hn. destruct Hn as (_ & _ & _ & Hc).
    apply IH in H. destruct H as [[suffix Hs] Hlen].
    destruct Hc as [Hc | Hc]; rewrite Hc in Hs, Hlen.
    + split; [now exists suffix | assumption].
    + rewrite <- app_assoc in Hs. rewrite length_app in Hlen.
      split; [now exists ([n] ++ suffix) | lia].
Qed.

Lemma completed_agents_append_only_witness :
  invoke_all (create_workflow obliging_env) ["links"; "orchestrator"; "translation"]
    research_only_state world0
  = Ok (translation_node
          (orchestrator_node
             (fst (link_verification_node obliging_env research_only_state world0))),
        mkWorld 0 1)
  /\ (exists suffix,
        completed_agents
          (translation_node
             (orchestrator_node
                (fst (link_verification_node obliging_env research_only_state world0))))
        = ["research"] ++ suffix).
Proof.
  split; [reflexivity |].
  apply (completed_agents_append_only obliging_env
           ["links"; "orchestrator"; "translation"] research_only_state _ world0
           (mkWorld 0 1)).
  reflexivity.
Defined.

(* ================================================================== *)
(** ** Link verification and completion *)
(* ================================================================== *)

Lemma urls_to_check_filter (sources : list dict) :
  map Some (urls_to_check sources)
  = map (assoc "url") (filter (has_key "url") sources).
Proof.
  induction sources as [| source rest IH]; [reflexivity |].
  cbn [urls_to_check filter]. unfold has_key at 1.
  destruct (assoc "url" source) as [url |] eqn:Hurl.
  - cbn [map]. now rewrite Hurl, IH.
  - exact IH.
Qed.

Lemma verified_entries_url (env : Env) (urls : list pyval) (n : nat) :
  map (assoc "url") (verified_entries env n urls) = map Some urls.
Proof.
  revert n. induction urls as [| url rest IH]; intro n; [reflexivity |].
  cbn [verified_entries map]. now rewrite IH.
Qed.

Lemma verified_entries_status (env : Env) (urls : list pyval) (n : nat) :
  Forall (fun entry : dict => assoc "status" entry = Some (VStr "ACTIVE"))
         (verified_entries env n urls).
Proof.
  revert n. induction urls as [| url rest IH]; intro n; cbn [verified_entries].
  - constructor.
  - constructor; [reflexivity | apply IH].
Qed.

(** C10: after [link_verification_node], whatever the state was,
    [broken_links] is empty, [verified_links] holds one entry for each
    element of [sources_found] that has a ["url"] key, in the same order
    and with that url, and every entry has status ["ACTIVE"]. *)
Theorem link_verification_reports_all_active :
  forall (env : Env) (st : AgentState) (w : World),
    broken_links (fst (link_verification_node env st w)) = []
    /\ exists entries : list dict,
         verified_links (fst (link_verification_node env st w)) = Stored entries
         /\ map (assoc "url") entries
            = map (assoc "url") (filter (has_key "url") (get (sources_found st) []))
         /\ Forall (fun entry : dict => assoc "status" entry = Some (VStr "ACTIVE"))
                   entries.
Proof.
  intros env st w. split; [reflexivity |].
  exists (verified_entries env (clock_reads w)
            (urls_to_check (get (sources_found st) []))).
  split; [reflexivity |]. split.
  - rewrite verified_entries_url. apply urls_to_check_filter.
  - apply verified_entries_status.
Qed.

(** Where the keys are missing, the defaults of [completion_node] apply. *)
Lemma completion_payload_defaults (st : AgentState) (now : string) :
  english_content st = Missing ->
  verified_links st = Missing ->
  current_events_mapped st = Missing ->
  assoc "content" (completion_payload st now) = Some (VStr "")
  /\ assoc "verified_links" (completion_payload st now) = Some (VList [])
  /\ assoc "context" (completion_payload st now) = Some (VDict []).
Proof.
  intros H1 H2 H3. unfold completion_payload. rewrite H1, H2, H3. now cbn.
Qed.

(** C8 (the code departs from the claim): the state that the walk of
    [run_orchestrator] holds once only the research step has run has
    [english_content] and [current_events_mapped] present with value
    [None], so the defaults given to [state.get] do not apply:
    [completion_node] raises nothing, stamps [generated_at], keeps the
    source and the empty list of links, but the content and the context of
    its result are [None], not the empty string and the empty mapping. *)
Theorem completion_node_on_research_only :
  research_agent_node obliging_env
    (orchestrator_node (initial_state "source_lookup" "Hermon" "0.0")) world0
  = Ok (research_only_state, mkWorld 1 0)
  /\ completed_agents research_only_state = ["research"]
  /\ forall (env : Env) (w : World),
       final_output (fst (completion_node env research_only_state w))
       = Some (json_dumps env (VDict
           [ ("task_type", VStr "source_lookup");
             ("sources", VList [VDict found_source]);
             ("content", VNone);
             ("verified_links", VList []);
             ("context", VNone);
             ("generated_at", VStr (isoformat_utcnow env (clock_reads w))) ])).
Proof.
  repeat split.
Qed.

(* ================================================================== *)
(** ** The walk of the graph *)
(* ================================================================== *)

Lemma run_unfold (fuel : nat) (g : StateGraph) (n : string) (st : AgentState) (w : World) :
  run (S fuel) g n st w
  = if n =? END then ([], Done st w)
    else match exec_node g n st w with
         | Raise e => ([], Aborted e)
         | Ok (st', w') =>
             match successor g n st' with
             | Raise e => ([(n, current_agent st')], Aborted e)
             | Ok n' =>
                 let (trace, r) := run fuel g n' st' w' in
                 ((n, current_agent st') :: trace, r)
             end
         end.
Proof. reflexivity. Qed.

Lemma exec_router (env : Env) (st : AgentState) (w : World) :
  exec_node (create_workflow env) "orchestrator" st w = Ok (orchestrator_node st, w).
Proof. reflexivity. Qed.

Lemma successor_router_step (env : Env) (st : AgentState) (s : string) :
  In s step_names ->
  current_agent st = s ->
  successor (create_workflow env) "orchestrator" st = Ok s.
Proof.
  intros Hin Hs. unfold successor.
  cbn [assoc conditional_edges create_workflow String.eqb Ascii.eqb Bool.eqb].
  unfold should_continue. rewrite Hs. clear Hs.
  cbn in Hin. decompose [or] Hin; try contradiction; subst s; reflexivity.
Qed.

Lemma successor_router_complete (env : Env) (st : AgentState) :
  current_agent st = "complete" ->
  successor (create_workflow env) "orchestrator" st = Ok "completion".
Proof.
  intro Hs. unfold successor.
  cbn [assoc conditional_edges create_workflow String.eqb Ascii.eqb Bool.eqb].
  unfold should_continue. rewrite Hs. reflexivity.
Qed.

Lemma successor_step (env : Env) (st : AgentState) (s : string) :
  In s step_names ->
  successor (create_workflow env) s st = Ok "orchestrator".
Proof.
  intro Hin. cbn in Hin. decompose [or] Hin; try contradiction; subst s; reflexivity.
Qed.

Lemma step_name_not_END (s : string) : In s step_names -> (s =? END) = false.
Proof.
  intro Hin. cbn in Hin. decompose [or] Hin; try contradiction; subst s; reflexivity.
Qed.

(** The walk from the completion node. *)
Lemma run_completion (env : Env) (fuel : nat) (st : AgentState) (w : World) :
  run (S (S fuel)) (create_workflow env) "completion" st w
  = ([("completion", "done")],
     Done (fst (completion_node env st w)) (snd (completion_node env st w))).
Proof. reflexivity. Qed.

(** The walk from the router when it selects ["complete"]. *)
Lemma run_router_complete (env : Env) (fuel : nat) (st : AgentState) (w : World) :
  current_agent (orchestrator_node st) = "complete" ->
  run (S (S (S fuel))) (create_workflow env) "orchestrator" st w
  = ([("orchestrator", "complete"); ("completion", "done")],
     Done (fst (completion_node env (orchestrator_node st) w))
          (snd (completion_node env (orchestrator_node st) w))).
Proof.
  intro Hs. rewrite run_unfold.
  change ("orchestrator" =? END) with false. cbv iota.
  rewrite exec_router, (successor_router_complete env _ Hs), run_completion.
  now rewrite Hs.
Qed.

(** The walk from the router when it selects the step [s]. *)
Lemma run_router_step (env : Env) (fuel : nat) (st : AgentState) (w : World) (s : string) :
  In s step_names ->
  current_agent (orchestrator_node st) = s ->
  run (S (S fuel)) (create_workflow env) "orchestrator" st w
  = match exec_node (create_workflow env) s (orchestrator_node st) w with
    | Raise e => ([("orchestrator", s)], Aborted e)
    | Ok (st', w') =>
        let (trace, r) := run fuel (create_workflow env) "orchestrator" st' w' in
        (("orchestrator", s) :: (s, current_agent st') :: trace, r)
    end.
Proof.
  intros Hin Hs. rewrite run_unfold.
  change ("orchestrator" =? END) with false. cbv iota.
  rewrite exec_router, (successor_router_step env _ s Hin Hs), Hs.
  rewrite run_unfold, (step_name_not_END s Hin).
  destruct (exec_node (create_workflow env) s (orchestrator_node st) w)
    as [[st' w'] | e]; [| reflexivity].
  rewrite (successor_step env st' s Hin).
  now destruct (run fuel (create_workflow env) "orchestrator" st' w').
Qed.

(** What a step executor does when it returns. *)
Lemma exec_step_effect (env : Env) (s : string) (st st' : AgentState) (w w' : World) :
  In s step_names ->
  exec_node (create_workflow env) s st w = Ok (st', w') ->
  completed_agents st' = completed_agents st ++ [s]
  /\ task_type st' = task_type st
  /\ current_agent st' = current_agent st
  /\ (s = "research" -> sources_found st' = Stored [found_source])
  /\ (s <> "research" -> sources_found st' = sources_found st).
Proof.
  intro Hin. cbn in Hin. decompose [or] Hin; try contradiction; subst s;
    unfold exec_node; cbn [assoc nodes create_workflow String.eqb Ascii.eqb Bool.eqb];
    run_node; intros [= <- <-]; cbn; repeat split; congruence.
Qed.

(** With responsive collaborators a step executor returns; the content
    step also needs a citation in every source. *)
Lemma exec_step_returns (env : Env) (s : string) (st : AgentState) (w : World) :
  responsive env ->
  In s step_names ->
  (s = "content" -> sources_cited st = true) ->
  exists st' w', exec_node (create_workflow env) s st w = Ok (st', w').
Proof.
  intros Hresp Hin Hsrc.
  destruct (Hresp (requests w)) as (text & v & Hreply & Hloads).
  cbn in Hin. decompose [or] Hin; try contradiction; subst s;
    unfold exec_node; cbn [assoc nodes create_workflow String.eqb Ascii.eqb Bool.eqb];
    unfold pure_node, total_node, research_agent_node, content_generation_node,
      context_enrichment_node, create_message, loads, sources_text_ok, bind;
    cbn [sources_found current_events_mapped append_message];
    unfold sources_cited in Hsrc;
    rewrite ?Hsrc by reflexivity; rewrite ?Hreply; rewrite ?Hloads;
    try destruct (link_verification_node env st w) as [st1 w1];
    eauto.
Qed.

Lemma missing_app_le (cl completed : list string) (s : string) :
  missing cl (completed ++ [s]) <= missing cl completed.
Proof.
  unfold missing. induction cl as [| c cl IH]; [apply Nat.le_refl |].
  cbn [filter]. rewrite mem_app.
  destruct (mem c completed); cbn [orb negb length];
    [assumption | destruct (mem c [s]); cbn [negb length]; lia].
Qed.

Lemma missing_app_lt (cl completed : list string) (s : string) :
  In s cl ->
  mem s completed = false ->
  missing cl (completed ++ [s]) < missing cl completed.
Proof.
  intros Hin Hs. induction cl as [| c cl IH]; [contradiction |].
  pose proof (missing_app_le cl completed s) as Hle.
  unfold missing in *. cbn [filter]. rewrite mem_app.
  destruct Hin as [-> | Hin].
  - rewrite Hs. cbn [orb]. unfold mem at 1. cbn [existsb].
    rewrite String.eqb_refl. cbn [orb negb length]. lia.
  - specialize (IH Hin).
    destruct (mem c completed); cbn [orb negb length];
      [assumption | destruct (mem c [s]); cbn [negb length]; lia].
Qed.

Lemma spec_next_step_cases (cl completed : list string) :
  spec_next_step cl completed = "complete"
  \/ (In (spec_next_step cl completed) cl
      /\ mem (spec_next_step cl completed) completed = false).
Proof.
  induction cl as [| c cl IH]; cbn [spec_next_step]; [now left |].
  destruct (mem c completed) eqn:Hc.
  - destruct IH as [IH | [IH1 IH2]]; [now left | right; split; [now right | assumption]].
  - right. split; [now left | assumption].
Qed.

Lemma checklist_step_names (tt : string) (cl : list string) (s : string) :
  spec_required_steps tt = Some cl -> In s cl -> In s step_names.
Proof.
  intros Hcl Hin. apply spec_required_steps_cases in Hcl.
  destruct Hcl as [[_ ->] | [[_ ->] | [_ ->]]]; cbn in Hin |- *; tauto.
Qed.

Lemma step_name_not_router (s : string) :
  In s step_names -> (s =? "orchestrator") = false.
Proof.
  intro Hin. cbn in Hin. decompose [or] Hin; try contradiction; subst s; reflexivity.
Qed.

Lemma missing_le_length (cl completed : list string) :
  missing cl completed <= length cl.
Proof. apply filter_length_le. Qed.

(** A step executor leaves every source with its citation. *)
Lemma exec_step_cited (env : Env) (s : string) (st st' : AgentState) (w w' : World) :
  In s step_names ->
  exec_node (create_workflow env) s st w = Ok (st', w') ->
  (s = "research" \/ sources_cited st = true) ->
  sources_cited st' = true.
Proof.
  intros Hin Hexec Hc.
  destruct (exec_step_effect env s st st' w w' Hin Hexec) as (_ & _ & _ & Hr & Hn).
  unfold sources_cited in *.
  destruct (String.eqb_spec s "research") as [E | E].
  - now rewrite (Hr E).
  - rewrite (Hn E). destruct Hc as [Hc | Hc]; [contradiction | assumption].
Qed.

Lemma orchestrator_node_cited (st : AgentState) :
  sources_cited (orchestrator_node st) = sources_cited st.
Proof. rewrite orchestrator_node_frame. reflexivity. Qed.

(** Every checklist starts with the research step. *)
Lemma research_runs_first (tt : string) (cl completed : list string) :
  spec_required_steps tt = Some cl ->
  ~ In "research" completed ->
  spec_next_step cl completed = "research".
Proof.
  intros Hcl Hnr. apply mem_false_In in Hnr.
  apply spec_required_steps_cases in Hcl.
  destruct Hcl as [[_ ->] | [[_ ->] | [_ ->]]];
    cbn [spec_next_step]; now rewrite Hnr.
Qed.

(** The walk from the router on a declared task type: it stops within
    the fuel, the router runs at most once more than there are entries
    still to run, a finished walk ends with the router selecting
    ["complete"] and the completion node, and with responsive
    collaborators the walk does finish. *)
Lemma walk_bounded (env : Env) (cl : list string) :
  forall (k : nat) (st : AgentState) (w : World) (fuel : nat),
    spec_required_steps (task_type st) = Some cl ->
    missing cl (completed_agents st) <= k ->
    2 * k + 3 <= fuel ->
    snd (run fuel (create_workflow env) "orchestrator" st w) <> OutOfFuel
    /\ router_invocations (fst (run fuel (create_workflow env) "orchestrator" st w))
       <= k + 1
    /\ (forall st' w',
          snd (run fuel (create_workflow env) "orchestrator" st w) = Done st' w' ->
          exists trace,
            fst (run fuel (create_workflow env) "orchestrator" st w)
            = trace ++ [("orchestrator", "complete"); ("completion", "done")])
    /\ (responsive env ->
        sources_cited st = true \/ ~ In "research" (completed_agents st) ->
        exists st' w',
          snd (run fuel (create_workflow env) "orchestrator" st w) = Done st' w').
Proof.
  induction k as [| k IH]; intros st w fuel Hcl Hk Hfuel;
    pose proof (orchestrator_node_selects st cl Hcl) as Hsel;
    (destruct fuel as [| [| [| fuel]]]; [lia | lia | lia |]);
    (destruct (spec_next_step_cases cl (completed_agents st)) as [Hc | [Hin Hmem]];
     [ rewrite Hc in Hsel; rewrite (run_router_complete env fuel st w Hsel);
       cbn [fst snd]; repeat split;
       [ discriminate | cbn; lia | intros; now exists [] | eauto ] |]).
  - pose proof (missing_app_lt cl _ _ Hin Hmem). lia.
  - pose proof (missing_app_lt cl _ _ Hin Hmem) as Hlt.
    remember (spec_next_step cl (completed_agents st)) as s eqn:Es.
    pose proof (checklist_step_names _ _ _ Hcl Hin) as Hs.
    assert (Hfirst : s = "research" \/ sources_cited st = true \/
                     ~ (sources_cited st = true \/ ~ In "research" (completed_agents st))).
    { destruct (String.eqb_spec s "research") as [E | E]; [now left | right].
      destruct (sources_cited st); [now left | right].
      intros [Hf | Hnr]; [discriminate |].
      apply E. rewrite Es. now apply (research_runs_first (task_type st)). }
    rewrite (run_router_step env (S fuel) st w s Hs Hsel).
    destruct (exec_node (create_workflow env) s (orchestrator_node st) w)
      as [[st1 w1] | e] eqn:Hexec.
    + pose proof (exec_step_effect env s _ _ _ _ Hs Hexec) as (Hc1 & Ht1 & _).
      rewrite orchestrator_node_completed in Hc1.
      rewrite orchestrator_node_task_type in Ht1.
      assert (Hcl1 : spec_required_steps (task_type st1) = Some cl)
        by (now rewrite Ht1).
      assert (Hk1 : missing cl (completed_agents st1) <= k)
        by (rewrite Hc1; lia).
      specialize (IH st1 w1 (S fuel) Hcl1 Hk1 ltac:(lia)).
      destruct IH as (IH1 & IH2 & IH3 & IH4).
      destruct (run (S fuel) (create_workflow env) "orchestrator" st1 w1)
        as [trace r].
      cbn [fst snd] in *. repeat split.
      * assumption.
      * unfold router_invocations in *. cbn [filter fst].
        rewrite (step_name_not_router s Hs).
        change ("orchestrator" =? "orchestrator") with true. cbn [length]. lia.
      * intros st' w' Hr. destruct (IH3 st' w' Hr) as [tr0 ->].
        now exists (("orchestrator", s) :: (s, current_agent st1) :: tr0).
      * intros Hresp Hcited. apply (IH4 Hresp). left.
        apply (exec_step_cited env s _ _ _ _ Hs Hexec).
        rewrite orchestrator_node_cited. tauto.
    + cbn [fst snd]. repeat split.
      * discriminate.
      * cbn. lia.
      * discriminate.
      * intros Hresp Hcited. exfalso.
        destruct (exec_step_returns env s (orchestrator_node st) w Hresp Hs)
          as (st1 & w1 & Hok); [| congruence].
        intros E. rewrite orchestrator_node_cited.
        destruct Hfirst as [F | [F | F]]; [congruence | assumption | tauto].
Qed.

(** C4: on a declared task type with a checklist of [N] entries the walk
    of the workflow stops: it needs no more than [2 * N + 3] steps, the
    router runs at most [N + 1] times, a walk that is not cut short by an
    exception ends with the router selecting ["complete"], the completion
    node and END, and with responsive collaborators it does so. *)
Theorem driver_terminates_within_bound :
  forall (env : Env) (st : AgentState) (w : World) (cl : list string) (fuel : nat),
    spec_required_steps (task_type st) = Some cl ->
    2 * length cl + 3 <= fuel ->
    snd (run_workflow env fuel st w) <> OutOfFuel
    /\ router_invocations (fst (run_workflow env fuel st w)) <= length cl + 1
    /\ (forall st' w',
          snd (run_workflow env fuel st w) = Done st' w' ->
          exists trace,
            fst (run_workflow env fuel st w)
            = trace ++ [("orchestrator", "complete"); ("completion", "done")])
    /\ (responsive env ->
        sources_cited st = true \/ ~ In "research" (completed_agents st) ->
        exists st' w', snd (run_workflow env fuel st w) = Done st' w').
Proof.
  intros env st w cl fuel Hcl Hfuel.
  apply (walk_bounded env cl (length cl)); [assumption | | assumption].
  apply missing_le_length.
Qed.

Lemma driver_terminates_within_bound_witness :
  spec_required_steps (task_type (initial_state "farbrengen" "Hermon" "0.0"))
  = Some ["research"; "context"; "content"; "links"]
  /\ 2 * length ["research"; "context"; "content"; "links"] + 3 <= 11
  /\ snd (run_workflow obliging_env 11 (initial_state "farbrengen" "Hermon" "0.0") world0)
     <> OutOfFuel
  /\ router_invocations
       (fst (run_workflow obliging_env 11 (initial_state "farbrengen" "Hermon" "0.0")
               world0))
     <= 5.
Proof.
  split; [reflexivity |]. split; [cbn; lia |].
  pose proof (driver_terminates_within_bound obliging_env
                (initial_state "farbrengen" "Hermon" "0.0") world0
                ["research"; "context"; "content"; "links"] 11
                eq_refl ltac:(cbn; lia)) as (H1 & H2 & _).
  split; [exact H1 | exact H2].
Defined.

Lemma checklist_NoDup (tt : string) (cl : list string) :
  spec_required_steps tt = Some cl -> NoDup cl.
Proof.
  intro Hcl. apply spec_required_steps_cases in Hcl.
  destruct Hcl as [[_ ->] | [[_ ->] | [_ ->]]];
    repeat (constructor; [cbn; intuition discriminate |]); constructor.
Qed.

Lemma completion_node_completed (env : Env) (st : AgentState) (w : World) :
  completed_agents (fst (completion_node env st w)) = completed_agents st.
Proof. reflexivity. Qed.

(** With responsive collaborators the walk from the router, when the
    entries [done] of the checklist have run and [todo] remain, runs
    exactly the entries of [todo], in order, and then completes. *)
Lemma walk_visits (env : Env) (cl : list string) :
  responsive env ->
  forall (todo done : list string) (st : AgentState) (w : World) (fuel : nat),
    spec_required_steps (task_type st) = Some cl ->
    cl = done ++ todo ->
    completed_agents st = done ->
    sources_cited st = true \/ ~ In "research" done ->
    2 * length todo + 3 <= fuel ->
    exists st' w',
      run fuel (create_workflow env) "orchestrator" st w
      = (expected_trace todo, Done st' w')
      /\ completed_agents st' = cl.
Proof.
  intros Hresp.
  induction todo as [| s rest IH]; intros done st w fuel Hcl Hsplit Hdone Hcited Hfuel;
    pose proof (orchestrator_node_selects st cl Hcl) as Hsel;
    (destruct fuel as [| [| [| fuel]]]; [cbn in Hfuel; lia ..|]).
  - rewrite app_nil_r in Hsplit. subst cl.
    rewrite spec_next_step_all in Hsel by (now rewrite Hdone).
    rewrite (run_router_complete env fuel st w Hsel).
    eexists _, _. split; [reflexivity |].
    rewrite completion_node_completed, orchestrator_node_completed. assumption.
  - assert (Hnd : ~ In s done).
    { pose proof (checklist_NoDup _ _ Hcl) as Hnd. rewrite Hsplit in Hnd.
      apply NoDup_remove_2 in Hnd. intro Hin. apply Hnd.
      apply in_or_app. now left. }
    assert (Hs : In s step_names).
    { apply (checklist_step_names _ _ _ Hcl). rewrite Hsplit.
      apply in_or_app. right. now left. }
    assert (Hnext : spec_next_step cl (completed_agents st) = s).
    { rewrite Hsplit, Hdone. now apply spec_next_step_first. }
    rewrite Hnext in Hsel.
    assert (Hfirst : s = "research" \/ sources_cited st = true).
    { destruct Hcited as [Hc | Hnr]; [now right | left].
      rewrite <- Hnext, Hdone. now apply (research_runs_first (task_type st)). }
    rewrite (run_router_step env (S fuel) st w s Hs Hsel).
    destruct (exec_step_returns env s (orchestrator_node st) w Hresp Hs)
      as (st1 & w1 & Hexec).
    { intros ->. rewrite orchestrator_node_cited.
      destruct Hfirst as [F | F]; [discriminate F | exact F]. }
    rewrite Hexec.
    pose proof (exec_step_effect env s _ _ _ _ Hs Hexec) as (Hc1 & Ht1 & Ha1 & _).
    rewrite orchestrator_node_completed in Hc1.
    rewrite orchestrator_node_task_type in Ht1.
    destruct (IH (done ++ [s]) st1 w1 (S fuel)) as (st' & w' & Hrun & Hfin).
    + now rewrite Ht1.
    + rewrite <- app_assoc. exact Hsplit.
    + now rewrite Hc1, Hdone.
    + left. apply (exec_step_cited env s _ _ _ _ Hs Hexec).
      rewrite orchestrator_node_cited. exact Hfirst.
    + cbn [length] in Hfuel. lia.
    + rewrite Hrun, Ha1, Hsel. exists st', w'. split; [reflexivity | exact Hfin].
Qed.

(** A step executor that returns had the reply it needs, and sent the
    requests counted by [step_requests]. *)
Lemma exec_step_needs (env : Env) (s : string) (st st' : AgentState) (w w' : World) :
  In s step_names ->
  exec_node (create_workflow env) s st w = Ok (st', w') ->
  step_reply_ok env s (requests w)
  /\ requests w' = requests w + step_requests s.
Proof.
  intro Hin. cbn in Hin. decompose [or] Hin; try contradiction; subst s;
    unfold exec_node; cbn [assoc nodes create_workflow String.eqb Ascii.eqb Bool.eqb];
    unfold pure_node, total_node, research_agent_node, content_generation_node,
      context_enrichment_node, link_verification_node, create_message, loads,
      sources_text_ok, bind, step_reply_ok, step_requests;
    cbn [sources_found current_events_mapped append_message requests
         String.eqb Ascii.eqb Bool.eqb orb].
  - destruct (reply env (requests w)) as [text |]; [| discriminate].
    destruct (json_loads env text) as [v |] eqn:Hv; [| discriminate].
    intros [= <- <-]. split; [now exists text, v | cbn; lia].
  - destruct (reply env (requests w)) as [text |]; [| discriminate].
    destruct (json_loads env text) as [v |] eqn:Hv; [| discriminate].
    intros [= <- <-]. split; [now exists text, v | cbn; lia].
  - destruct (forallb (has_key "citation") (get (sources_found st) []));
      [| discriminate].
    destruct (reply env (requests w)) as [text |]; [| discriminate].
    intros [= <- <-]. split; [now exists text | cbn; lia].
  - intros [= <- <-]. split; [exact I | cbn; lia].
  - intros [= <- <-]. split; [exact I | cbn; lia].
Qed.

(** A step executor returns when it has the reply it needs; the content
    step also needs a citation in every source. *)
Lemma exec_step_returns_when (env : Env) (s : string) (st : AgentState) (w : World) :
  step_reply_ok env s (requests w) ->
  In s step_names ->
  (s = "content" -> sources_cited st = true) ->
  exists st' w', exec_node (create_workflow env) s st w = Ok (st', w').
Proof.
  intros Hok Hin Hsrc.
  cbn in Hin. decompose [or] Hin; try contradiction; subst s;
    unfold step_reply_ok in Hok;
    cbn [String.eqb Ascii.eqb Bool.eqb orb] in Hok;
    unfold exec_node; cbn [assoc nodes create_workflow String.eqb Ascii.eqb Bool.eqb];
    unfold pure_node, total_node, research_agent_node, content_generation_node,
      context_enrichment_node, create_message, loads, sources_text_ok, bind;
    cbn [sources_found current_events_mapped append_message].
  - destruct Hok as (text & v & -> & ->). eauto.
  - destruct Hok as (text & v & -> & ->). eauto.
  - destruct Hok as (text & ->). unfold sources_cited in Hsrc.
    rewrite Hsrc by reflexivity. eauto.
  - destruct (link_verification_node env st w) as [st1 w1]. eauto.
  - eauto.
Qed.

(** The walk from the router, when the entries [done] of the checklist
    have run and [todo] remain: with the replies that the executors of
    [todo] need it runs exactly the entries of [todo], in order, and then
    completes; and a walk that completes had those replies. *)
Lemma walk_visits_exact (env : Env) (cl : list string) :
  forall (todo done : list string) (st : AgentState) (w : World) (fuel : nat),
    spec_required_steps (task_type st) = Some cl ->
    cl = done ++ todo ->
    completed_agents st = done ->
    sources_cited st = true \/ ~ In "research" done ->
    2 * length todo + 3 <= fuel ->
    (replies_suffice env todo (requests w) ->
     exists st' w',
       run fuel (create_workflow env) "orchestrator" st w
       = (expected_trace todo, Done st' w')
       /\ completed_agents st' = cl)
    /\ (forall st' w',
          snd (run fuel (create_workflow env) "orchestrator" st w) = Done st' w' ->
          replies_suffice env todo (requests w)).
Proof.
  induction todo as [| s rest IH]; intros done st w fuel Hcl Hsplit Hdone Hcited Hfuel;
    pose proof (orchestrator_node_selects st cl Hcl) as Hsel;
    (destruct fuel as [| [| [| fuel]]]; [cbn in Hfuel; lia ..|]).
  - split; [intros _ | intros; exact I].
    rewrite app_nil_r in Hsplit. subst cl.
    rewrite spec_next_step_all in Hsel by (now rewrite Hdone).
    rewrite (run_router_complete env fuel st w Hsel).
    eexists _, _. split; [reflexivity |].
    rewrite completion_node_completed, orchestrator_node_completed. assumption.
  - assert (Hnd : ~ In s done).
    { pose proof (checklist_NoDup _ _ Hcl) as Hnd. rewrite Hsplit in Hnd.
      apply NoDup_remove_2 in Hnd. intro Hin. apply Hnd.
      apply in_or_app. now left. }
    assert (Hs : In s step_names).
    { apply (checklist_step_names _ _ _ Hcl). rewrite Hsplit.
      apply in_or_app. right. now left. }
    assert (Hnext : spec_next_step cl (completed_agents st) = s).
    { rewrite Hsplit, Hdone. now apply spec_next_step_first. }
    rewrite Hnext in Hsel.
    assert (Hfirst : s = "research" \/ sources_cited st = true).
    { destruct Hcited as [Hc | Hnr]; [now right | left].
      rewrite <- Hnext, Hdone. now apply (research_runs_first (task_type st)). }
    rewrite (run_router_step env (S fuel) st w s Hs Hsel).
    destruct (exec_node (create_workflow env) s (orchestrator_node st) w)
      as [[st1 w1] | e] eqn:Hexec.
    + pose proof (exec_step_effect env s _ _ _ _ Hs Hexec) as (Hc1 & Ht1 & Ha1 & _).
      pose proof (exec_step_needs env s _ _ _ _ Hs Hexec) as (Hok & Hreq).
      rewrite orchestrator_node_completed in Hc1.
      rewrite orchestrator_node_task_type in Ht1.
      destruct (IH (done ++ [s]) st1 w1 (S fuel)) as (IHsuff & IHnec).
      * now rewrite Ht1.
      * rewrite <- app_assoc. exact Hsplit.
      * now rewrite Hc1, Hdone.
      * left. apply (exec_step_cited env s _ _ _ _ Hs Hexec).
        rewrite orchestrator_node_cited. exact Hfirst.
      * cbn [length] in Hfuel. lia.
      * rewrite Hreq in IHsuff, IHnec. split.
        -- intros [_ Hrest]. destruct (IHsuff Hrest) as (st' & w' & Hrun & Hfin).
           rewrite Hrun, Ha1, Hsel. exists st', w'. split; [reflexivity | exact Hfin].
        -- intros st' w' Hr.
           destruct (run (S fuel) (create_workflow env) "orchestrator" st1 w1)
             as [trace r].
           cbn [snd] in Hr, IHnec. split; [exact Hok | now apply (IHnec st' w')].
    + split.
      * intros [Hok _]. exfalso.
        destruct (exec_step_returns_when env s (orchestrator_node st) w Hok Hs)
          as (st1 & w1 & Hret); [| congruence].
        intros ->. rewrite orchestrator_node_cited.
        destruct Hfirst as [F | F]; [discriminate F | exact F].
      * intros st' w' Hr. discriminate Hr.
Qed.

(** C1: for each of the three declared task types, from any state with
    empty [completed_agents], the walk that alternates the router and the
    step it selects runs every step of the checklist exactly once, in
    checklist order, and only then does the router select ["complete"];
    the walk ends at END with [completed_agents] equal to the checklist.
    The walk gets there exactly when no executor raises, that is when the
    research and context requests are answered with text that
    [json.loads] decodes and the content request is answered with any
    text: with such replies the walk is the one just described, and every
    walk that reaches END has had such replies and is that walk. *)
Theorem router_visits_checklist_in_order :
  forall (env : Env) (tt : string) (cl : list string)
         (st : AgentState) (w : World) (fuel : nat),
    spec_required_steps tt = Some cl ->
    task_type st = tt ->
    completed_agents st = [] ->
    2 * length cl + 3 <= fuel ->
    (replies_suffice env cl (requests w) ->
     exists st' w',
       run_workflow env fuel st w = (expected_trace cl, Done st' w')
       /\ completed_agents st' = cl)
    /\ (forall st' w',
          snd (run_workflow env fuel st w) = Done st' w' ->
          replies_suffice env cl (requests w)
          /\ fst (run_workflow env fuel st w) = expected_trace cl
          /\ completed_agents st' = cl).
Proof.
  intros env tt cl st w fuel Hcl Htt Hempty Hfuel.
  destruct (walk_visits_exact env cl cl [] st w fuel) as (Hsuff & Hnec); auto.
  { now rewrite Htt. }
  unfold run_workflow. cbn [entry_point create_workflow].
  split; [exact Hsuff |].
  intros st' w' Hr. pose proof (Hnec st' w' Hr) as Hok.
  destruct (Hsuff Hok) as (st2 & w2 & Hrun & Hfin).
  rewrite Hrun in Hr |- *. cbn [fst snd] in Hr |- *.
  injection Hr as <- <-. now repeat split.
Qed.

Lemma router_visits_checklist_in_order_witness :
  spec_required_steps "farbrengen" = Some ["research"; "context"; "content"; "links"]
  /\ task_type (initial_state "farbrengen" "Hermon" "0.0") = "farbrengen"
  /\ completed_agents (initial_state "farbrengen" "Hermon" "0.0") = []
  /\ 2 * length ["research"; "context"; "content"; "links"] + 3 <= 11
  /\ reply prose_env 2 = Some "Opening (1 minute): the lights of Chanukah"
  /\ json_loads prose_env "Opening (1 minute): the lights of Chanukah" = None
  /\ exists st' w',
       run_workflow prose_env 11 (initial_state "farbrengen" "Hermon" "0.0") world0
       = ([ ("orchestrator", "research"); ("research", "research");
            ("orchestrator", "context"); ("context", "context");
            ("orchestrator", "content"); ("content", "content");
            ("orchestrator", "links"); ("links", "links");
            ("orchestrator", "complete"); ("completion", "done") ],
          Done st' w')
       /\ completed_agents st' = ["research"; "context"; "content"; "links"].
Proof.
  split; [reflexivity |]. split; [reflexivity |]. split; [reflexivity |].
  split; [cbn; lia |]. split; [reflexivity |]. split; [reflexivity |].
  apply (proj1 (router_visits_checklist_in_order prose_env "farbrengen"
                  ["research"; "context"; "content"; "links"]
                  (initial_state "farbrengen" "Hermon" "0.0") world0 11
                  eq_refl eq_refl eq_refl ltac:(cbn; lia))).
  cbn. repeat split.
  - now exists "{}", (VDict []).
  - now exists "{}", (VDict []).
  - now exists "Opening (1 minute): the lights of Chanukah".
Defined.

(* ================================================================== *)
(** ** The invariant of the data model *)
(* ================================================================== *)

Lemma NoDup_snoc (l : list string) (x : string) :
  NoDup l -> ~ In x l -> NoDup (l ++ [x]).
Proof.
  intros Hl Hx. apply NoDup_rev in Hl. rewrite <- (rev_involutive (l ++ [x])).
  apply NoDup_rev. rewrite rev_app_distr. cbn. constructor; [| assumption].
  now rewrite <- in_rev.
Qed.

Lemma create_message_inv (env : Env) (w w' : World) (text : string) :
  create_message env w = Ok (text, w') -> reply env (requests w) = Some text.
Proof.
  unfold create_message. destruct (reply env (requests w)); [| discriminate].
  now intros [= -> _].
Qed.

Lemma loads_inv (env : Env) (text : string) (v : pyval) :
  loads env text = Ok v -> json_loads env text = Some v.
Proof.
  unfold loads. destruct (json_loads env text); [| discriminate].
  now intros [= ->].
Qed.

Ltac run_node_eq :=
  unfold pure_node, total_node, research_agent_node, content_generation_node,
    context_enrichment_node, link_verification_node, translation_node,
    completion_node, utcnow, sources_text_ok, bind;
  repeat match goal with
         | |- context [match ?x with _ => _ end] => destruct x eqn:?
         end;
  try discriminate;
  repeat match goal with
         | H : create_message _ _ = Ok _ |- _ => apply create_message_inv in H
         | H : loads _ _ = Ok _ |- _ => apply loads_inv in H
         end.

(** A step that was not complete and now runs keeps the invariant. *)
Lemma outputs_match_step (env : Env) (s : string) (st st' : AgentState) (w w' : World) :
  In s step_names ->
  exec_node (create_workflow env) s st w = Ok (st', w') ->
  outputs_match env st ->
  ~ In s (completed_agents st) ->
  (s = "links" -> In "research" (completed_agents st)) ->
  (sources_found st = Stored [] \/ sources_found st = Stored [found_source]) ->
  outputs_match env st'.
Proof.
  intros Hin Hexec (Hr & Hc & Hl & Ht & Hx1 & Hx2 & Hnd) Hnew Hlinks Hsrc.
  cbn in Hin. decompose [or] Hin; try contradiction; subst s; clear Hin;
    revert Hexec; unfold exec_node;
    cbn [assoc nodes create_workflow String.eqb Ascii.eqb Bool.eqb];
    run_node_eq; intros [= <- <-].
  all: try specialize (Hlinks eq_refl).
  all: unfold outputs_match, has_sources, has_content, has_links, has_context,
         has_translations in *.
  all: cbn.
  all: rewrite !in_app_iff.
  all: destruct Hsrc as [Hsrc | Hsrc]; rewrite ?Hsrc in *; cbn.
  all: repeat split; try (apply NoDup_snoc; assumption).
  all: try (intuition (try discriminate; try congruence); fail).
  all: intros _; eexists; split; [reflexivity |]; eexists _, _; split; eassumption.
Qed.

Lemma successor_router_stuck (env : Env) (st : AgentState) :
  current_agent st = "orchestrator" ->
  successor (create_workflow env) "orchestrator" st = Raise (KeyError "orchestrator").
Proof.
  intro Hs. unfold successor.
  cbn [assoc conditional_edges create_workflow String.eqb Ascii.eqb Bool.eqb].
  unfold should_continue. rewrite Hs. reflexivity.
Qed.

(** What the router selects on a declared task type: the terminal
    marker, or a step that is not complete; the links step only after
    the research step. *)
Lemma router_choice (st : AgentState) (cl : list string) :
  spec_required_steps (task_type st) = Some cl ->
  current_agent (orchestrator_node st) = "complete"
  \/ (In (current_agent (orchestrator_node st)) step_names
      /\ ~ In (current_agent (orchestrator_node st)) (completed_agents st)
      /\ (current_agent (orchestrator_node st) = "links" ->
          In "research" (completed_agents st))).
Proof.
  intro Hcl. rewrite (orchestrator_node_selects st cl Hcl).
  apply spec_required_steps_cases in Hcl.
  destruct Hcl as [[_ ->] | [[_ ->] | [_ ->]]]; cbn [spec_next_step];
    repeat match goal with
           | |- context [mem ?s ?l] =>
               let E := fresh "E" in
               destruct (mem s l) eqn:E;
               [apply mem_In in E | apply mem_false_In in E]
           end;
    first [ now left
          | right; split; [cbn; tauto |]; split; [assumption |];
            intro; first [assumption | discriminate] ].
Qed.

(** Nodes other than the step executors leave the output fields and
    [completed_agents] alone. *)
Lemma outputs_match_frame (env : Env) (st st' : AgentState) :
  completed_agents st' = completed_agents st ->
  sources_found st' = sources_found st ->
  english_content st' = english_content st ->
  verified_links st' = verified_links st ->
  translations st' = translations st ->
  current_events_mapped st' = current_events_mapped st ->
  outputs_match env st -> outputs_match env st'.
Proof.
  unfold outputs_match, has_sources, has_content, has_links, has_context,
    has_translations.
  now intros -> -> -> -> -> ->.
Qed.

(** [walk_inv] holds at every node the walk reaches. *)
Lemma reachable_walk_inv (env : Env) (n : string) (st : AgentState) (w : World) :
  reachable env n st w -> walk_inv env n st.
Proof.
  induction 1 as [tt ui ts w | n st w st' w' n' Hreach IH Hend Hexec Hsucc].
  - unfold walk_inv, outputs_match. cbn.
    repeat split; try (intuition discriminate); try constructor; auto.
  - destruct IH as (Hout & Hsrc & Hunk & Hnode).
    destruct Hnode as [-> | [-> | [-> | (Hs & Hnew & Hlinks)]]].
    + rewrite exec_router in Hexec. injection Hexec as <- <-.
      pose proof (orchestrator_node_frame st) as Hframe.
      assert (Hout' : outputs_match env (orchestrator_node st))
        by (apply (outputs_match_frame env st); try assumption;
            rewrite Hframe; reflexivity).
      assert (Hsrc' : sources_found (orchestrator_node st) = sources_found st)
        by (rewrite Hframe; reflexivity).
      pose proof (orchestrator_node_completed st) as Hcomp.
      pose proof (orchestrator_node_task_type st) as Htt.
      destruct (spec_required_steps (task_type st)) as [cl |] eqn:Hcl.
      * unfold walk_inv. rewrite Hsrc', Hcomp, Htt, Hcl.
        split; [assumption |]. split; [assumption |]. split; [discriminate |].
        destruct (router_choice st cl Hcl) as [Hc | (Hs & Hnew & Hlinks)].
        -- rewrite (successor_router_complete env _ Hc) in Hsucc.
           injection Hsucc as <-. tauto.
        -- rewrite (successor_router_step env _ _ Hs eq_refl) in Hsucc.
           injection Hsucc as <-. tauto.
      * destruct (Hunk eq_refl) as [_ Hcur].
        rewrite successor_router_stuck in Hsucc; [discriminate |].
        now rewrite orchestrator_node_unknown.
    + destruct (spec_required_steps (task_type st)) as [cl |] eqn:Hcl;
        [| destruct (Hunk eq_refl) as [[=] _]].
      injection Hexec as <- <-. injection Hsucc as <-.
      unfold walk_inv. cbn [task_type sources_found completion_node utcnow fst
                              set_current_agent set_final_output append_message].
      rewrite Hcl.
      split; [apply (outputs_match_frame env st); auto |].
      split; [assumption |]. split; [discriminate | tauto].
    + contradiction.
    + destruct (spec_required_steps (task_type st)) as [cl |] eqn:Hcl.
      2:{ destruct (Hunk eq_refl) as [-> _]. cbn in Hs.
          decompose [or] Hs; try contradiction; discriminate. }
      rewrite (successor_step env st' n Hs) in Hsucc. injection Hsucc as <-.
      pose proof (exec_step_effect env n _ _ _ _ Hs Hexec) as (_ & Htt & _ & Hr & Hn).
      unfold walk_inv. rewrite Htt, Hcl.
      split; [now apply (outputs_match_step env n st st' w w') |].
      split; [| split; [discriminate | tauto]].
      destruct (String.eqb_spec n "research") as [E | E];
        [right; now apply Hr | rewrite (Hn E); assumption].
Qed.

(** With a collaborator that answers [null], the walk for a
    [farbrengen] reaches the router a third time with the context step
    complete and [current_events_mapped] still [None]. *)
Lemma null_reply_reachable :
  exists (st : AgentState) (w : World),
    reachable null_env "orchestrator" st w
    /\ completed_agents st = ["research"; "context"]
    /\ current_events_mapped st = Stored VNone.
Proof.
  eexists _, _. split.
  - eapply reach_next;
      [ eapply reach_next;
        [ eapply reach_next;
          [ eapply reach_next;
            [ apply (reach_entry null_env "farbrengen" "Hermon" "0.0" world0)
            | discriminate | reflexivity | reflexivity ]
          | discriminate | reflexivity | reflexivity ]
        | discriminate | reflexivity | reflexivity ]
      | discriminate | reflexivity | reflexivity ].
  - split; reflexivity.
Qed.

(** C5, as stated, fails: the context step stores whatever the reply
    decodes to, so a reply of [null] leaves ["context"] in
    [completed_agents] with [current_events_mapped] unset. *)
Lemma context_complete_without_output :
  ~ (forall (env : Env) (n : string) (st : AgentState) (w : World),
        reachable env n st w -> outputs_match_claimed st).
Proof.
  intro H.
  destruct null_reply_reachable as (st & w & Hreach & Hc & Hx).
  destruct (H null_env _ st w Hreach) as (_ & _ & _ & [Hctx _] & _).
  rewrite Hc in Hctx. unfold has_context in Hctx. rewrite Hx in Hctx.
  assert (F : false = true) by (apply Hctx; cbn; auto).
  discriminate F.
Qed.

(** C5, amended: in every state that the walk of the workflow reaches
    from the initial state of [run_orchestrator], a step is in
    [completed_agents] exactly when its output field is populated, for
    research, content, links and translation; [current_events_mapped] is
    set only if the context step is complete, and when the context step is
    complete it holds the decoded reply, so that the equivalence holds for
    context too unless a reply decodes to [None]; no step is recorded
    twice. *)
Theorem outputs_match_on_reachable_states :
  forall (env : Env) (n : string) (st : AgentState) (w : World),
    reachable env n st w ->
    outputs_match env st
    /\ ((forall v, decoded_reply env v -> v <> VNone) ->
        (In "context" (completed_agents st) <-> has_context st = true)).
Proof.
  intros env n st w Hreach.
  destruct (reachable_walk_inv env n st w Hreach) as (Hout & _).
  split; [exact Hout |].
  destruct Hout as (_ & _ & _ & _ & Hx1 & Hx2 & _).
  intro Hnn. split; [| exact Hx1].
  intro Hin. destruct (Hx2 Hin) as (v & Hv & Hdec).
  unfold has_context. rewrite Hv.
  specialize (Hnn v Hdec). now destruct v.
Qed.

Lemma outputs_match_on_reachable_states_witness :
  reachable obliging_env "orchestrator" research_only_state (mkWorld 1 0)
  /\ outputs_match obliging_env research_only_state.
Proof.
  assert (R : reachable obliging_env "orchestrator" research_only_state (mkWorld 1 0)).
  { eapply reach_next;
      [ eapply reach_next;
        [ apply (reach_entry obliging_env "source_lookup" "Hermon" "0.0" world0)
        | discriminate | reflexivity | reflexivity ]
      | discriminate | reflexivity | reflexivity ]. }
  split; [exact R |].
  exact (proj1 (outputs_match_on_reachable_states obliging_env "orchestrator"
                  research_only_state (mkWorld 1 0) R)).
Defined.

(* ================================================================== *)
(** ** Further properties of the nodes *)
(* ================================================================== *)

(** What a node does to [messages], and which fields it leaves alone. *)
Lemma exec_node_messages (env : Env) (n : string) (st st' : AgentState) (w w' : World) :
  exec_node (create_workflow env) n st w = Ok (st', w') ->
  exists added,
    messages st' = messages st ++ added /\ 1 <= length added <= 2.
Proof.
  unfold exec_node. node_cases n; try discriminate.
  - intros [= <- <-]. rewrite orchestrator_node_frame. cbn.
    eexists. split; [reflexivity | cbn; lia].
  - run_node. intros [= <- <-]. cbn. rewrite <- app_assoc.
    eexists. split; [reflexivity | cbn; lia].
  - run_node. intros [= <- <-]. cbn. rewrite <- app_assoc.
    eexists. split; [reflexivity | cbn; lia].
  - run_node. intros [= <- <-]. cbn. rewrite <- app_assoc.
    eexists. split; [reflexivity | cbn; lia].
  - run_node. intros [= <- <-]. cbn. rewrite <- app_assoc.
    eexists. split; [reflexivity | cbn; lia].
  - run_node. intros [= <- <-]. cbn. rewrite <- app_assoc.
    eexists. split; [reflexivity | cbn; lia].
  - run_node. intros [= <- <-]. cbn.
    eexists. split; [reflexivity | cbn; lia].
Qed.

(** X1: [messages] is an append-only log: across any sequence of node
    invocations the old log is a prefix of the new one, and every node
    that ran added one or two entries. *)
Theorem messages_append_only :
  forall (env : Env) (names : list string) (st st' : AgentState) (w w' : World),
    invoke_all (create_workflow env) names st w = Ok (st', w') ->
    exists added,
      messages st' = messages st ++ added
      /\ length names <= length added <= 2 * length names.
Proof.
  intros env names.
  induction names as [| n names IH]; intros st st' w w' H; cbn [invoke_all] in H.
  - injection H as <- <-. exists []. rewrite app_nil_r. cbn. auto.
  - unfold bind in H.
    destruct (exec_node (create_workflow env) n st w) as [[st1 w1] | e] eqn:Hn;
      [| discriminate].
    apply exec_node_messages in Hn. destruct Hn as (a1 & Ha1 & Hl1).
    apply IH in H. destruct H as (a2 & Ha2 & Hl2).
    exists (a1 ++ a2). rewrite Ha2, Ha1, <- app_assoc. split; [reflexivity |].
    rewrite length_app. cbn [length]. lia.
Qed.

Lemma messages_append_only_witness :
  invoke_all (create_workflow obliging_env) ["orchestrator"; "research"]
    (initial_state "source_lookup" "Hermon" "0.0") world0
  = Ok (research_only_state, mkWorld 1 0)
  /\ exists added,
       messages research_only_state
       = messages (initial_state "source_lookup" "Hermon" "0.0") ++ added
       /\ length ["orchestrator"; "research"] <= length added
          <= 2 * length ["orchestrator"; "research"].
Proof.
  split; [reflexivity |].
  apply (messages_append_only obliging_env ["orchestrator"; "research"]
           (initial_state "source_lookup" "Hermon" "0.0") research_only_state
           world0 (mkWorld 1 0)).
  reflexivity.
Defined.

(** X2: a node writes only what it owns.  [sources_found] changes only
    in the research step, [english_content] only in the content step,
    [verified_links] and [broken_links] only in the links step,
    [current_events_mapped] only in the context step, [translations] only
    in the translation step, [final_output] only in the completion node,
    [current_agent] only in the router and the completion node; and no
    node ever assigns [citations], [hebrew_content], [structure],
    [rebbe_prophecies] or [errors]. *)
Theorem nodes_write_only_their_fields :
  forall (env : Env) (n : string) (st st' : AgentState) (w w' : World),
    exec_node (create_workflow env) n st w = Ok (st', w') ->
    same_unowned_fields n st st' /\ same_untouched_fields st st'.
Proof.
  intros env n st st' w w'.
  unfold exec_node, same_unowned_fields, same_untouched_fields.
  node_cases n; try discriminate.
  - intros [= <- <-]. rewrite orchestrator_node_frame. cbn.
    repeat split; congruence.
  - run_node. intros [= <- <-]. cbn. repeat split; congruence.
  - run_node. intros [= <- <-]. cbn. repeat split; congruence.
  - run_node. intros [= <- <-]. cbn. repeat split; congruence.
  - run_node. intros [= <- <-]. cbn. repeat split; congruence.
  - run_node. intros [= <- <-]. cbn. repeat split; congruence.
  - run_node. intros [= <- <-]. cbn. repeat split; congruence.
Qed.

Lemma nodes_write_only_their_fields_witness :
  exec_node (create_workflow obliging_env) "links" research_only_state world0
  = Ok (link_verification_node obliging_env research_only_state world0)
  /\ same_untouched_fields research_only_state
       (fst (link_verification_node obliging_env research_only_state world0)).
Proof.
  split; [reflexivity |].
  apply (nodes_write_only_their_fields obliging_env "links" research_only_state
           (fst (link_verification_node obliging_env research_only_state world0))
           world0
           (snd (link_verification_node obliging_env research_only_state world0))).
  reflexivity.
Defined.

(* ================================================================== *)
(** ** The edges that leave the router *)
(* ================================================================== *)

(** The edge taken after the router, by the value of [current_agent]. *)
Lemma successor_router_cases (env : Env) (st : AgentState) :
  (In (current_agent st) routable
   /\ exists n, successor (create_workflow env) "orchestrator" st = Ok n)
  \/ (~ In (current_agent st) routable
      /\ successor (create_workflow env) "orchestrator" st
         = Raise (KeyError (current_agent st))).
Proof.
  unfold successor.
  cbn [assoc conditional_edges create_workflow String.eqb Ascii.eqb Bool.eqb].
  unfold should_continue, routable.
  generalize (current_agent st) as c. intro c.
  destruct (String.eqb_spec c "done") as [-> | E1];
    [left; split; [cbn; tauto | eexists; reflexivity] |].
  destruct (String.eqb_spec c "complete") as [-> | E2];
    [left; split; [cbn; tauto | eexists; reflexivity] |].
  cbn [assoc].
  destruct (String.eqb_spec c "research") as [-> | E3];
    [left; split; [cbn; tauto | eexists; reflexivity] |].
  destruct (String.eqb_spec c "content") as [-> | E4];
    [left; split; [cbn; tauto | eexists; reflexivity] |].
  destruct (String.eqb_spec c "links") as [-> | E5];
    [left; split; [cbn; tauto | eexists; reflexivity] |].
  destruct (String.eqb_spec c "context") as [-> | E6];
    [left; split; [cbn; tauto | eexists; reflexivity] |].
  destruct (String.eqb_spec c "translation") as [-> | E7];
    [left; split; [cbn; tauto | eexists; reflexivity] |].
  destruct (String.eqb_spec c "completion") as [-> | E8];
    [left; split; [cbn; tauto | eexists; reflexivity] |].
  destruct (String.eqb_spec c END) as [-> | E9];
    [left; split; [cbn; tauto | eexists; reflexivity] |].
  right. split; [| reflexivity].
  cbn. intros H. decompose [or] H; try contradiction; congruence.
Qed.

(** X3: after the router, [should_continue] finds an edge exactly when
    [current_agent] is one of the five step names, ["complete"],
    ["completion"], ["done"] or END; for every other value the lookup in
    the conditional edges raises [KeyError] with that value. *)
Theorem router_edge_exists_iff_routable :
  forall (env : Env) (st : AgentState),
    ((exists n, successor (create_workflow env) "orchestrator" st = Ok n)
     <-> In (current_agent st) routable)
    /\ (~ In (current_agent st) routable ->
        successor (create_workflow env) "orchestrator" st
        = Raise (KeyError (current_agent st))).
Proof.
  intros env st.
  destruct (successor_router_cases env st) as [[Hin Hok] | [Hnin Hraise]].
  - split; [tauto | contradiction].
  - split; [| intros _; exact Hraise].
    split; [| contradiction].
    intros [n Hn]. rewrite Hraise in Hn. discriminate Hn.
Qed.

(** The walk on an undeclared task type with no routable
    [current_agent]. *)
Lemma run_undeclared_abort (env : Env) (st : AgentState) (w : World) (fuel : nat) :
  spec_required_steps (task_type st) = None ->
  ~ In (current_agent st) routable ->
  run (S fuel) (create_workflow env) "orchestrator" st w
  = ([("orchestrator", current_agent st)], Aborted (KeyError (current_agent st))).
Proof.
  intros Hunk Hnr.
  pose proof (orchestrator_node_unknown st Hunk) as Hcur.
  rewrite run_unfold.
  change ("orchestrator" =? END) with false. cbv iota.
  rewrite exec_router.
  destruct (successor_router_cases env (orchestrator_node st)) as [[Hin _] | [_ Hraise]].
  - rewrite Hcur in Hin. contradiction.
  - rewrite Hraise, Hcur. reflexivity.
Qed.

(** X4: on a task type outside the declared three the router changes
    nothing, so unless [current_agent] already holds a routable value the
    walk stops at once: the router is the only node that runs and the
    walk aborts with [KeyError] on the value of [current_agent]. *)
Theorem undeclared_task_type_aborts :
  forall (env : Env) (st : AgentState) (w : World) (fuel : nat),
    spec_required_steps (task_type st) = None ->
    ~ In (current_agent st) routable ->
    run (S fuel) (create_workflow env) "orchestrator" st w
    = ([("orchestrator", current_agent st)], Aborted (KeyError (current_agent st))).
Proof.
  intros env st w fuel. apply run_undeclared_abort.
Qed.


Lemma undeclared_task_type_aborts_witness :
  spec_required_steps (task_type shiur_state) = None
  /\ ~ In (current_agent shiur_state) routable
  /\ run 25 (create_workflow obliging_env) "orchestrator" shiur_state world0
     = ([("orchestrator", "orchestrator")], Aborted (KeyError "orchestrator")).
Proof.
  assert (Hnr : ~ In (current_agent shiur_state) routable).
  { cbn. intros H. decompose [or] H; try contradiction; discriminate. }
  split; [reflexivity |]. split; [exact Hnr |].
  exact (undeclared_task_type_aborts obliging_env shiur_state world0 24 eq_refl Hnr).
Defined.

(** On an undeclared task type with [current_agent] at a step name the
    walk runs that step over and over. *)
Lemma undeclared_step_loops (env : Env) :
  forall (fuel : nat) (st : AgentState) (w : World),
    spec_required_steps (task_type st) = None ->
    In (current_agent st) step_names ->
    (forall st' w', snd (run fuel (create_workflow env) "orchestrator" st w)
                    <> Done st' w')
    /\ (current_agent st = "links" \/ current_agent st = "translation" ->
        snd (run fuel (create_workflow env) "orchestrator" st w) = OutOfFuel).
Proof.
  induction fuel as [fuel IH] using lt_wf_ind. intros st w Hunk Hs.
  pose proof (orchestrator_node_unknown st Hunk) as Hcur.
  destruct fuel as [| [| fuel]].
  - cbn. split; [discriminate | reflexivity].
  - rewrite run_unfold.
    change ("orchestrator" =? END) with false. cbv iota.
    rewrite exec_router.
    rewrite (successor_router_step env _ _ Hs Hcur).
    cbn. split; [discriminate | reflexivity].
  - rewrite (run_router_step env fuel st w _ Hs Hcur).
    destruct (exec_node (create_workflow env) (current_agent st)
                (orchestrator_node st) w) as [[st1 w1] | e] eqn:Hexec.
    + pose proof (exec_step_effect env _ _ _ _ _ Hs Hexec) as (_ & Ht1 & Ha1 & _).
      rewrite orchestrator_node_task_type in Ht1. rewrite Hcur in Ha1.
      destruct (IH fuel ltac:(lia) st1 w1) as [IH1 IH2];
        [now rewrite Ht1 | now rewrite Ha1 |].
      rewrite Ha1 in IH2.
      destruct (run fuel (create_workflow env) "orchestrator" st1 w1) as [trace r].
      cbn [snd] in *. split; assumption.
    + cbn [snd]. split; [discriminate |].
      intros [E | E]; rewrite E in Hexec; revert Hexec;
        unfold exec_node;
        cbn [assoc nodes create_workflow String.eqb Ascii.eqb Bool.eqb];
        unfold total_node, pure_node; discriminate.
Qed.

(** X5: on an undeclared task type, a state whose [current_agent] is a
    step name never reaches END: the router selects nothing new, so the
    same step is run again after every return to the router.  For the
    links and translation steps, which cannot raise, the walk is still
    running after any number of steps. *)
Theorem undeclared_task_type_never_completes :
  forall (env : Env) (fuel : nat) (st : AgentState) (w : World),
    spec_required_steps (task_type st) = None ->
    In (current_agent st) step_names ->
    (forall st' w', snd (run fuel (create_workflow env) "orchestrator" st w)
                    <> Done st' w')
    /\ (current_agent st = "links" \/ current_agent st = "translation" ->
        snd (run fuel (create_workflow env) "orchestrator" st w) = OutOfFuel).
Proof.
  intros env fuel st w. apply undeclared_step_loops.
Qed.

Lemma undeclared_task_type_never_completes_witness :
  spec_required_steps (task_type shiur_state_translation) = None
  /\ In (current_agent shiur_state_translation) step_names
  /\ snd (run 25 (create_workflow obliging_env) "orchestrator"
            shiur_state_translation world0) = OutOfFuel.
Proof.
  assert (Hs : In (current_agent shiur_state_translation) step_names)
    by (cbn; tauto).
  split; [reflexivity |]. split; [exact Hs |].
  apply (undeclared_task_type_never_completes obliging_env 25
           shiur_state_translation world0 eq_refl Hs).
  right. reflexivity.
Defined.

(* ================================================================== *)
(** ** Walks with collaborators that may fail *)
(* ================================================================== *)

(** The walk from the router when the entries [done] of the checklist
    have run and [todo] remain, whatever the collaborators do: a finished
    walk ran all of [todo] in order and assembled the final output; a walk
    aborted by an exception ran the entries before the failing one and
    nothing after it. *)
Lemma walk_shape (env : Env) (cl : list string) :
  forall (todo done : list string) (fuel : nat) (st : AgentState) (w : World),
    spec_required_steps (task_type st) = Some cl ->
    cl = done ++ todo ->
    completed_agents st = done ->
    match run fuel (create_workflow env) "orchestrator" st w with
    | (trace, Done st' w') =>
        trace = expected_trace todo
        /\ completed_agents st' = cl
        /\ current_agent st' = "done"
        /\ task_type st' = task_type st
        /\ exists pre now,
             final_output st'
             = Some (json_dumps env (VDict (completion_payload pre now)))
             /\ task_type pre = task_type st
    | (trace, Aborted e) =>
        exists before s after,
          todo = before ++ s :: after
          /\ trace = step_visits before ++ [("orchestrator", s)]
    | (_, OutOfFuel) => True
    end.
Proof.
  induction todo as [| s rest IH]; intros done fuel st w Hcl Hsplit Hdone;
    pose proof (orchestrator_node_selects st cl Hcl) as Hsel.
  - rewrite app_nil_r in Hsplit. subst cl.
    rewrite spec_next_step_all in Hsel by (now rewrite Hdone).
    destruct fuel as [| [| [| fuel]]].
    + exact I.
    + rewrite run_unfold. change ("orchestrator" =? END) with false. cbv iota.
      rewrite exec_router, (successor_router_complete env _ Hsel). exact I.
    + rewrite run_unfold. change ("orchestrator" =? END) with false. cbv iota.
      rewrite exec_router, (successor_router_complete env _ Hsel). exact I.
    + rewrite (run_router_complete env fuel st w Hsel).
      repeat split.
      * rewrite completion_node_completed, orchestrator_node_completed. assumption.
      * cbn. apply orchestrator_node_task_type.
      * eexists _, _. split; [reflexivity |].
        cbn. apply orchestrator_node_task_type.
  - assert (Hnd : ~ In s done).
    { pose proof (checklist_NoDup _ _ Hcl) as Hnd. rewrite Hsplit in Hnd.
      apply NoDup_remove_2 in Hnd. intro Hin. apply Hnd.
      apply in_or_app. now left. }
    assert (Hs : In s step_names).
    { apply (checklist_step_names _ _ _ Hcl). rewrite Hsplit.
      apply in_or_app. right. now left. }
    assert (Hnext : spec_next_step cl (completed_agents st) = s).
    { rewrite Hsplit, Hdone. now apply spec_next_step_first. }
    rewrite Hnext in Hsel.
    destruct fuel as [| [| fuel]].
    + exact I.
    + rewrite run_unfold. change ("orchestrator" =? END) with false. cbv iota.
      rewrite exec_router, (successor_router_step env _ _ Hs Hsel). exact I.
    + rewrite (run_router_step env fuel st w s Hs Hsel).
      destruct (exec_node (create_workflow env) s (orchestrator_node st) w)
        as [[st1 w1] | e] eqn:Hexec.
      * pose proof (exec_step_effect env s _ _ _ _ Hs Hexec) as (Hc1 & Ht1 & Ha1 & _).
        rewrite orchestrator_node_completed in Hc1.
        rewrite orchestrator_node_task_type in Ht1.
        specialize (IH (done ++ [s]) fuel st1 w1).
        rewrite Ht1 in IH. specialize (IH Hcl).
        rewrite <- app_assoc in IH. specialize (IH Hsplit).
        rewrite Hc1, Hdone in IH. specialize (IH eq_refl).
        destruct (run fuel (create_workflow env) "orchestrator" st1 w1)
          as [trace [st' w' | e |]].
        -- destruct IH as (-> & IH). rewrite Ha1, Hsel.
           split; [reflexivity | exact IH].
        -- destruct IH as (before & s' & after & -> & ->).
           exists (s :: before), s', after. rewrite Ha1, Hsel.
           split; reflexivity.
        -- exact I.
      * exists [], s, rest. split; reflexivity.
Qed.

(** X6: from a state of a declared task type with empty
    [completed_agents], and whatever the collaborators do, a walk that
    reaches END has run every step of the checklist once, in order, has
    [completed_agents] equal to the checklist and [final_output] set; a
    walk that an exception aborts has run exactly the steps before the
    failing one, in order, and none after it. *)
Theorem walk_runs_a_prefix_of_the_checklist :
  forall (env : Env) (cl : list string) (fuel : nat) (st : AgentState) (w : World),
    spec_required_steps (task_type st) = Some cl ->
    completed_agents st = [] ->
    (forall trace st' w',
        run_workflow env fuel st w = (trace, Done st' w') ->
        trace = expected_trace cl
        /\ completed_agents st' = cl
        /\ current_agent st' = "done"
        /\ final_output st' <> None)
    /\ (forall trace e,
          run_workflow env fuel st w = (trace, Aborted e) ->
          exists before s after,
            cl = before ++ s :: after
            /\ trace = step_visits before ++ [("orchestrator", s)]).
Proof.
  intros env cl fuel st w Hcl Hempty.
  pose proof (walk_shape env cl cl [] fuel st w Hcl eq_refl Hempty) as H.
  unfold run_workflow. cbn [entry_point create_workflow].
  destruct (run fuel (create_workflow env) "orchestrator" st w)
    as [trace0 [st0 w0 | e0 |]]; split; intros; try discriminate.
  - match goal with E : _ = _ |- _ => injection E as <- <- <- end.
    destruct H as (Ht & Hc & Ha & _ & pre & now & Hf & _).
    repeat split; try assumption. rewrite Hf. discriminate.
  - match goal with E : _ = _ |- _ => injection E as <- <- end.
    exact H.
Qed.

Lemma walk_runs_a_prefix_of_the_checklist_witness :
  spec_required_steps (task_type (initial_state "farbrengen" "Hermon" "0.0"))
  = Some ["research"; "context"; "content"; "links"]
  /\ completed_agents (initial_state "farbrengen" "Hermon" "0.0") = []
  /\ run_workflow failing_env 25 (initial_state "farbrengen" "Hermon" "0.0") world0
     = ([("orchestrator", "research"); ("research", "research");
         ("orchestrator", "context")], Aborted APIError)
  /\ exists before s after,
       ["research"; "context"; "content"; "links"] = before ++ s :: after
       /\ [("orchestrator", "research"); ("research", "research");
           ("orchestrator", "context")]
          = step_visits before ++ [("orchestrator", s)].
Proof.
  split; [reflexivity |]. split; [reflexivity |]. split; [reflexivity |].
  apply (proj2 (walk_runs_a_prefix_of_the_checklist failing_env
                  ["research"; "context"; "content"; "links"] 25
                  (initial_state "farbrengen" "Hermon" "0.0") world0
                  eq_refl eq_refl) _ APIError).
  reflexivity.
Defined.

(* ================================================================== *)
(** ** What [run_orchestrator] returns *)
(* ================================================================== *)

(** A finished walk stays finished with more fuel. *)
Lemma run_more_fuel (g : StateGraph) :
  forall (fuel : nat) (n : string) (st : AgentState) (w : World)
         (trace : list visit) (st' : AgentState) (w' : World),
    run fuel g n st w = (trace, Done st' w') ->
    forall k, run (k + fuel) g n st w = (trace, Done st' w').
Proof.
  induction fuel as [| fuel IH]; intros n st w trace st' w' H k.
  - discriminate H.
  - rewrite Nat.add_succ_r. rewrite run_unfold in H |- *.
    destruct (n =? END); [exact H |].
    destruct (exec_node g n st w) as [[st1 w1] | e]; [| exact H].
    destruct (successor g n st1) as [n1 | e]; [| exact H].
    destruct (run fuel g n1 st1 w1) as [tr [st2 w2 | e |]] eqn:Hrun;
      try discriminate H.
    now rewrite (IH _ _ _ _ _ _ Hrun k).
Qed.

Lemma create_message_world (env : Env) (w w' : World) (text : string) :
  create_message env w = Ok (text, w') ->
  w' = mkWorld (S (requests w)) (clock_reads w).
Proof.
  unfold create_message. destruct (reply env (requests w)); [| discriminate].
  now intros [= _ <-].
Qed.

(** One round of the walk that ends at END: the router selected [s],
    the step returned, and the walk went on from the router. *)
Lemma walk_step (env : Env) (tt : string) (cl done : list string) (s : string)
    (f : nat) (st : AgentState) (w : World) (trace : list visit)
    (st' : AgentState) (w' : World) :
  spec_required_steps tt = Some cl ->
  task_type st = tt ->
  completed_agents st = done ->
  spec_next_step cl done = s ->
  In s step_names ->
  run (S (S f)) (create_workflow env) "orchestrator" st w = (trace, Done st' w') ->
  exists st1 w1 trace1,
    exec_node (create_workflow env) s (orchestrator_node st) w = Ok (st1, w1)
    /\ run f (create_workflow env) "orchestrator" st1 w1 = (trace1, Done st' w')
    /\ task_type st1 = tt
    /\ completed_agents st1 = done ++ [s].
Proof.
  intros Hcl Htt Hdone Hnext Hs H. rewrite <- Htt in Hcl.
  assert (Hsel : current_agent (orchestrator_node st) = s)
    by (rewrite (orchestrator_node_selects st cl Hcl), Hdone; exact Hnext).
  rewrite (run_router_step env f st w s Hs Hsel) in H.
  destruct (exec_node (create_workflow env) s (orchestrator_node st) w)
    as [[st1 w1] | e] eqn:Hexec; [| discriminate H].
  pose proof (exec_step_effect env s _ _ _ _ Hs Hexec) as (Hc1 & Ht1 & _).
  rewrite orchestrator_node_completed, Hdone in Hc1.
  rewrite orchestrator_node_task_type, Htt in Ht1.
  destruct (run f (create_workflow env) "orchestrator" st1 w1)
    as [trace1 r1] eqn:Hrun.
  injection H as _ ->.
  exists st1, w1, trace1. repeat split; assumption.
Qed.

(** The last round of such a walk: the router selected ["complete"]. *)
Lemma walk_finish (env : Env) (tt : string) (cl done : list string) (f : nat)
    (st : AgentState) (w : World) (trace : list visit) (st' : AgentState) (w' : World) :
  spec_required_steps tt = Some cl ->
  task_type st = tt ->
  completed_agents st = done ->
  spec_next_step cl done = "complete" ->
  run (S (S (S f))) (create_workflow env) "orchestrator" st w = (trace, Done st' w') ->
  st' = fst (completion_node env (orchestrator_node st) w)
  /\ w' = snd (completion_node env (orchestrator_node st) w).
Proof.
  intros Hcl Htt Hdone Hnext H. rewrite <- Htt in Hcl.
  assert (Hsel : current_agent (orchestrator_node st) = "complete")
    by (rewrite (orchestrator_node_selects st cl Hcl), Hdone; exact Hnext).
  rewrite (run_router_complete env f st w Hsel) in H.
  injection H as _ <- <-. split; reflexivity.
Qed.

Lemma orchestrator_node_report_fields (st : AgentState) :
  report_fields (orchestrator_node st) = report_fields st.
Proof. rewrite orchestrator_node_frame. reflexivity. Qed.

Ltac open_exec :=
  unfold exec_node;
  cbn [assoc nodes create_workflow String.eqb Ascii.eqb Bool.eqb];
  unfold pure_node, total_node, research_agent_node, content_generation_node,
    context_enrichment_node, link_verification_node, translation_node,
    sources_text_ok, bind.

(** What the research step leaves in the fields of the report. *)
Lemma exec_research_report (env : Env) (st st1 : AgentState) (w w1 : World)
    (src : slot (list dict)) (eng : slot (option string)) (lnk : slot (list dict))
    (ctx : slot pyval) :
  report_fields st = (src, eng, lnk, ctx) ->
  exec_node (create_workflow env) "research" st w = Ok (st1, w1) ->
  report_fields st1 = (Stored [found_source], eng, lnk, ctx)
  /\ w1 = mkWorld (S (requests w)) (clock_reads w).
Proof.
  unfold report_fields. intros [= <- <- <- <-]. open_exec.
  destruct (create_message env w) as [[text w2] |] eqn:R; [| discriminate].
  apply create_message_world in R. subst w2.
  destruct (loads env text); [| discriminate].
  intros [= <- <-]. split; reflexivity.
Qed.

(** What the context step leaves in the fields of the report. *)
Lemma exec_context_report (env : Env) (st st1 : AgentState) (w w1 : World)
    (src : slot (list dict)) (eng : slot (option string)) (lnk : slot (list dict))
    (ctx : slot pyval) :
  report_fields st = (src, eng, lnk, ctx) ->
  exec_node (create_workflow env) "context" st w = Ok (st1, w1) ->
  exists text context_data,
    reply env (requests w) = Some text
    /\ json_loads env text = Some context_data
    /\ report_fields st1 = (src, eng, lnk, Stored context_data)
    /\ w1 = mkWorld (S (requests w)) (clock_reads w).
Proof.
  unfold report_fields. intros [= <- <- <- <-]. open_exec.
  destruct (create_message env w) as [[text w2] |] eqn:R; [| discriminate].
  pose proof (create_message_world _ _ _ _ R). subst w2.
  apply create_message_inv in R.
  destruct (loads env text) as [v |] eqn:J; [| discriminate].
  apply loads_inv in J.
  intros [= <- <-]. exists text, v. repeat split; assumption.
Qed.

(** What the content step leaves in the fields of the report. *)
Lemma exec_content_report (env : Env) (st st1 : AgentState) (w w1 : World)
    (src : slot (list dict)) (eng : slot (option string)) (lnk : slot (list dict))
    (ctx : slot pyval) :
  report_fields st = (src, eng, lnk, ctx) ->
  exec_node (create_workflow env) "content" st w = Ok (st1, w1) ->
  exists text,
    reply env (requests w) = Some text
    /\ report_fields st1 = (src, Stored (Some text), lnk, ctx)
    /\ w1 = mkWorld (S (requests w)) (clock_reads w).
Proof.
  unfold report_fields. intros [= <- <- <- <-]. open_exec.
  cbn [sources_found append_message].
  destruct (forallb (has_key "citation") (get (sources_found st) []));
    [| discriminate].
  destruct (create_message env w) as [[text w2] |] eqn:R; [| discriminate].
  pose proof (create_message_world _ _ _ _ R). subst w2.
  apply create_message_inv in R.
  intros [= <- <-]. exists text. repeat split; assumption.
Qed.

(** What the links step leaves in the fields of the report. *)
Lemma exec_links_report (env : Env) (st st1 : AgentState) (w w1 : World)
    (src : slot (list dict)) (eng : slot (option string)) (lnk : slot (list dict))
    (ctx : slot pyval) :
  report_fields st = (src, eng, lnk, ctx) ->
  exec_node (create_workflow env) "links" st w = Ok (st1, w1) ->
  report_fields st1
  = (src, eng,
     Stored (verified_entries env (clock_reads w) (urls_to_check (get src []))),
     ctx)
  /\ w1 = mkWorld (requests w)
            (clock_reads w + length (urls_to_check (get src []))).
Proof.
  unfold report_fields. intros [= <- <- <- <-]. open_exec.
  intros [= <- <-]. split; reflexivity.
Qed.

(** What the translation step leaves in the fields of the report. *)
Lemma exec_translation_report (env : Env) (st st1 : AgentState) (w w1 : World) :
  exec_node (create_workflow env) "translation" st w = Ok (st1, w1) ->
  report_fields st1 = report_fields st /\ w1 = w /\ translations st1 <> None.
Proof.
  open_exec. intros [= <- <-]. repeat split. discriminate.
Qed.

(** The text that [completion_node] stores, from the fields it reads. *)
Lemma completion_node_report (env : Env) (st : AgentState) (w : World)
    (tt : string) (content : slot (option string)) (links : list dict)
    (context : slot pyval) :
  task_type st = tt ->
  report_fields st = (Stored [found_source], content, Stored links, context) ->
  final_output (fst (completion_node env st w))
  = Some (report env tt (of_optional_str (get content (Some ""))) links
            (get context (VDict [])) (clock_reads w))
  /\ translations (fst (completion_node env st w)) = translations st
  /\ snd (completion_node env st w) = mkWorld (requests w) (S (clock_reads w)).
Proof.
  unfold report_fields. intros <- [= Hs Hc Hl Hx].
  unfold completion_node, utcnow, report, completion_payload.
  cbn [fst snd final_output set_current_agent set_final_output append_message
         task_type sources_found english_content verified_links
         current_events_mapped translations].
  rewrite Hs, Hc, Hl, Hx. repeat split.
Qed.

(** The finished walk of a [source_lookup]. *)
Lemma walk_source_lookup (env : Env) (fuel : nat) (ui ts : string) (w : World)
    (trace : list visit) (st' : AgentState) (w' : World) :
  run_workflow env fuel (initial_state "source_lookup" ui ts) w
  = (trace, Done st' w') ->
  final_output st'
  = Some (report env "source_lookup" VNone [found_link env (clock_reads w)] VNone
            (clock_reads w + 1))
  /\ requests w' = requests w + 1
  /\ clock_reads w' = clock_reads w + 2.
Proof.
  intro H. unfold run_workflow in H. cbn [entry_point create_workflow] in H.
  apply run_more_fuel with (k := 7) in H. cbn [Nat.add] in H.
  pose proof (orchestrator_node_report_fields (initial_state "source_lookup" ui ts)) as F0.
  destruct (walk_step env "source_lookup" ["research"; "links"] [] "research" _
              (initial_state "source_lookup" ui ts) _ _ _ _
              eq_refl eq_refl eq_refl eq_refl ltac:(cbn; tauto) H)
    as (st1 & w1 & tr1 & E1 & H1 & T1 & C1).
  destruct (exec_research_report env _ _ _ _ _ _ _ _ F0 E1) as [F1 ->].
  rewrite <- orchestrator_node_report_fields in F1.
  destruct (walk_step env "source_lookup" ["research"; "links"] _ "links" _ _ _ _ _ _
              eq_refl T1 C1 eq_refl ltac:(cbn; tauto) H1)
    as (st2 & w2 & tr2 & E2 & H2 & T2 & C2).
  destruct (exec_links_report env _ _ _ _ _ _ _ _ F1 E2) as [F2 ->].
  rewrite <- orchestrator_node_report_fields in F2.
 
  destruct (walk_finish env "source_lookup" ["research"; "links"] _ _ _ _ _ _ _ eq_refl T2 C2 eq_refl H2)
    as [-> ->].
  rewrite <- (orchestrator_node_task_type st2) in T2.
  match goal with
  | |- context [completion_node env ?st ?W] =>
      destruct (completion_node_report env st W _ _ _ _ T2 F2) as (R & Tr & Hw)
  end.
  rewrite Hw.
  split; [exact R |]. cbn. lia.
Qed.

(** The finished walk of a [farbrengen]. *)
Lemma walk_farbrengen (env : Env) (fuel : nat) (ui ts : string) (w : World)
    (trace : list visit) (st' : AgentState) (w' : World) :
  run_workflow env fuel (initial_state "farbrengen" ui ts) w
  = (trace, Done st' w') ->
  (exists context_text context content_text,
      reply env (requests w + 1) = Some context_text
      /\ json_loads env context_text = Some context
      /\ reply env (requests w + 2) = Some content_text
      /\ final_output st'
         = Some (report env "farbrengen" (VStr content_text)
                   [found_link env (clock_reads w)] context (clock_reads w + 1)))
  /\ requests w' = requests w + 3
  /\ clock_reads w' = clock_reads w + 2.
Proof.
  intro H. unfold run_workflow in H. cbn [entry_point create_workflow] in H.
  apply run_more_fuel with (k := 11) in H. cbn [Nat.add] in H.
  pose proof (orchestrator_node_report_fields (initial_state "farbrengen" ui ts)) as F0.
  set (cl := ["research"; "context"; "content"; "links"]).
  destruct (walk_step env "farbrengen" cl [] "research" _
              (initial_state "farbrengen" ui ts) _ _ _ _
              eq_refl eq_refl eq_refl eq_refl ltac:(cbn; tauto) H)
    as (st1 & w1 & tr1 & E1 & H1 & T1 & C1).
  destruct (exec_research_report env _ _ _ _ _ _ _ _ F0 E1) as [F1 ->].
  rewrite <- orchestrator_node_report_fields in F1.
  destruct (walk_step env "farbrengen" cl _ "context" _ _ _ _ _ _
              eq_refl T1 C1 eq_refl ltac:(cbn; tauto) H1)
    as (st2 & w2 & tr2 & E2 & H2 & T2 & C2).
  destruct (exec_context_report env _ _ _ _ _ _ _ _ F1 E2)
    as (ctext & cdata & Rc & Jc & F2 & ->).
  rewrite <- orchestrator_node_report_fields in F2.
  destruct (walk_step env "farbrengen" cl _ "content" _ _ _ _ _ _
              eq_refl T2 C2 eq_refl ltac:(cbn; tauto) H2)
    as (st3 & w3 & tr3 & E3 & H3 & T3 & C3).
  destruct (exec_content_report env _ _ _ _ _ _ _ _ F2 E3) as (text & Rt & F3 & ->).
  rewrite <- orchestrator_node_report_fields in F3.
  destruct (walk_step env "farbrengen" cl _ "links" _ _ _ _ _ _
              eq_refl T3 C3 eq_refl ltac:(cbn; tauto) H3)
    as (st4 & w4 & tr4 & E4 & H4 & T4 & C4).
  destruct (exec_links_report env _ _ _ _ _ _ _ _ F3 E4) as [F4 ->].
  rewrite <- orchestrator_node_report_fields in F4.
  destruct (walk_finish env "farbrengen" cl _ _ _ _ _ _ _ eq_refl T4 C4 eq_refl H4) as [-> ->].
  rewrite <- (orchestrator_node_task_type st4) in T4.
  cbn [requests clock_reads] in *.
  match goal with
  | |- context [completion_node env ?st ?W] =>
      destruct (completion_node_report env st W _ _ _ _ T4 F4) as (R & Tr & Hw)
  end.
  rewrite Hw.
  split; [| cbn; lia].
  exists ctext, cdata, text.
  replace (requests w + 1) with (S (requests w)) by lia.
  replace (requests w + 2) with (S (S (requests w))) by lia.
  repeat split; assumption.
Qed.

(** The finished walk of a [dvar_torah]. *)
Lemma walk_dvar_torah (env : Env) (fuel : nat) (ui ts : string) (w : World)
    (trace : list visit) (st' : AgentState) (w' : World) :
  run_workflow env fuel (initial_state "dvar_torah" ui ts) w
  = (trace, Done st' w') ->
  (exists content_text,
      reply env (requests w + 1) = Some content_text
      /\ final_output st'
         = Some (report env "dvar_torah" (VStr content_text) [] VNone (clock_reads w)))
  /\ translations st' <> None
  /\ requests w' = requests w + 2
  /\ clock_reads w' = clock_reads w + 1.
Proof.
  intro H. unfold run_workflow in H. cbn [entry_point create_workflow] in H.
  apply run_more_fuel with (k := 9) in H. cbn [Nat.add] in H.
  pose proof (orchestrator_node_report_fields (initial_state "dvar_torah" ui ts)) as F0.
  set (cl := ["research"; "content"; "translation"]).
  destruct (walk_step env "dvar_torah" cl [] "research" _
              (initial_state "dvar_torah" ui ts) _ _ _ _
              eq_refl eq_refl eq_refl eq_refl ltac:(cbn; tauto) H)
    as (st1 & w1 & tr1 & E1 & H1 & T1 & C1).
  destruct (exec_research_report env _ _ _ _ _ _ _ _ F0 E1) as [F1 ->].
  rewrite <- orchestrator_node_report_fields in F1.
  destruct (walk_step env "dvar_torah" cl _ "content" _ _ _ _ _ _
              eq_refl T1 C1 eq_refl ltac:(cbn; tauto) H1)
    as (st2 & w2 & tr2 & E2 & H2 & T2 & C2).
  destruct (exec_content_report env _ _ _ _ _ _ _ _ F1 E2) as (text & Rt & F2 & ->).
  rewrite <- orchestrator_node_report_fields in F2.
  destruct (walk_step env "dvar_torah" cl _ "translation" _ _ _ _ _ _
              eq_refl T2 C2 eq_refl ltac:(cbn; tauto) H2)
    as (st3 & w3 & tr3 & E3 & H3 & T3 & C3).
  destruct (exec_translation_report env _ _ _ _ E3) as (F3 & -> & N3).
  rewrite F2 in F3.
  rewrite <- orchestrator_node_report_fields in F3.
  destruct (walk_finish env "dvar_torah" cl _ _ _ _ _ _ _ eq_refl T3 C3 eq_refl H3) as [-> ->].
  rewrite <- (orchestrator_node_task_type st3) in T3.
  cbn [requests clock_reads] in *.
  match goal with
  | |- context [completion_node env ?st ?W] =>
      destruct (completion_node_report env st W _ _ _ _ T3 F3) as (R & Tr & Hw)
  end.
  rewrite Hw.
  split; [| split; [| cbn; lia]].
  - exists text. replace (requests w + 1) with (S (requests w)) by lia.
    split; assumption.
  - rewrite Tr. rewrite orchestrator_node_frame. exact N3.
Qed.

(** [run_orchestrator] returns what the finished walk left in
    [final_output]. *)
Lemma run_orchestrator_returned (env : Env) (fuel : nat) (tt ui ts : string)
    (w : World) (out : option string) :
  run_orchestrator env fuel tt ui ts w = Returned out ->
  exists trace st' w',
    run_workflow env fuel (initial_state tt ui ts) w = (trace, Done st' w')
    /\ out = final_output st'.
Proof.
  unfold run_orchestrator.
  destruct (run_workflow env fuel (initial_state tt ui ts) w)
    as [trace [st' w' | e |]]; cbn [snd]; try discriminate.
  intros [= <-]. now exists trace, st', w'.
Qed.

(** With responsive collaborators [run_orchestrator] returns. *)
Lemma run_orchestrator_returns (env : Env) (fuel : nat) (tt ui ts : string)
    (w : World) (cl : list string) :
  responsive env ->
  spec_required_steps tt = Some cl ->
  2 * length cl + 3 <= fuel ->
  exists out, run_orchestrator env fuel tt ui ts w = Returned out.
Proof.
  intros Hresp Hcl Hfuel.
  destruct (walk_visits env cl Hresp cl [] (initial_state tt ui ts) w fuel)
    as (st' & w' & Hrun & _); auto.
  unfold run_orchestrator, run_workflow. cbn [entry_point create_workflow].
  rewrite Hrun. now exists (final_output st').
Qed.

(** X7: [run_orchestrator] hands back a report only for the three
    declared task types, and then never [None]: the report is the text of
    a dict whose ["task_type"] is the task type asked for.  For any other
    task type it raises [KeyError] on ["orchestrator"] as soon as the
    router has run. *)
Theorem run_orchestrator_reports_declared_types_only :
  forall (env : Env) (fuel : nat) (tt ui ts : string) (w : World),
    (spec_required_steps tt = None ->
     run_orchestrator env (S fuel) tt ui ts w = Raised (KeyError "orchestrator"))
    /\ (forall out,
          run_orchestrator env fuel tt ui ts w = Returned out ->
          spec_required_steps tt <> None
          /\ exists payload,
               out = Some (json_dumps env (VDict payload))
               /\ assoc "task_type" payload = Some (VStr tt)).
Proof.
  intros env fuel tt ui ts w. split.
  - intro Hunk. unfold run_orchestrator, run_workflow.
    cbn [entry_point create_workflow].
    rewrite run_undeclared_abort; [reflexivity | exact Hunk |].
    cbn. intros H. decompose [or] H; try contradiction; discriminate.
  - intros out Hout.
    apply run_orchestrator_returned in Hout.
    destruct Hout as (trace & st' & w' & Hrun & ->).
    unfold run_workflow in Hrun. cbn [entry_point create_workflow] in Hrun.
    destruct (spec_required_steps tt) as [cl |] eqn:Hcl.
    + split; [discriminate |].
      pose proof (walk_shape env cl cl [] fuel (initial_state tt ui ts) w
                    Hcl eq_refl eq_refl) as Hshape.
      rewrite Hrun in Hshape.
      destruct Hshape as (_ & _ & _ & _ & pre & now & Hf & Hpre).
      exists (completion_payload pre now). split; [exact Hf |].
      cbn [completion_payload assoc String.eqb Ascii.eqb Bool.eqb].
      now rewrite Hpre.
    + exfalso. destruct fuel as [| fuel]; [discriminate Hrun |].
      rewrite run_undeclared_abort in Hrun; [discriminate Hrun | exact Hcl |].
      cbn. intros H. decompose [or] H; try contradiction; discriminate.
Qed.

(** X8: a [source_lookup] that returns always returns the same report,
    whatever the query and whatever the model replied: the one stored
    source, one link marked ACTIVE, and [None] for content and context. With
    responsive collaborators and seven steps of fuel it does return. *)
Theorem source_lookup_report :
  forall (env : Env) (fuel : nat) (ui ts : string) (w : World),
    (forall out,
        run_orchestrator env fuel "source_lookup" ui ts w = Returned out ->
        out = Some (report env "source_lookup" VNone
                      [found_link env (clock_reads w)] VNone (clock_reads w + 1)))
    /\ (responsive env -> 7 <= fuel ->
        run_orchestrator env fuel "source_lookup" ui ts w
        = Returned (Some (report env "source_lookup" VNone
                            [found_link env (clock_reads w)] VNone
                            (clock_reads w + 1)))).
Proof.
  intros env fuel ui ts w.
  assert (Hpart : forall out,
             run_orchestrator env fuel "source_lookup" ui ts w = Returned out ->
             out = Some (report env "source_lookup" VNone
                           [found_link env (clock_reads w)] VNone
                           (clock_reads w + 1))).
  { intros out Hout. apply run_orchestrator_returned in Hout.
    destruct Hout as (trace & st' & w' & Hrun & ->).
    now apply walk_source_lookup in Hrun. }
  split; [exact Hpart |].
  intros Hresp Hfuel.
  destruct (run_orchestrator_returns env fuel "source_lookup" ui ts w
              ["research"; "links"] Hresp eq_refl Hfuel) as [out Hout].
  rewrite Hout. f_equal. now apply Hpart.
Qed.

(** X9: the report of a [farbrengen] that returns holds the stored
    source, its link marked ACTIVE, as content the text of the third reply
    and as context the decoded second reply; the first reply, to the
    research request, leaves no trace in it.  With responsive
    collaborators and eleven steps of fuel it does return. *)
Theorem farbrengen_report :
  forall (env : Env) (fuel : nat) (ui ts : string) (w : World),
    (forall out,
        run_orchestrator env fuel "farbrengen" ui ts w = Returned out ->
        exists context_text context content_text,
          reply env (requests w + 1) = Some context_text
          /\ json_loads env context_text = Some context
          /\ reply env (requests w + 2) = Some content_text
          /\ out = Some (report env "farbrengen" (VStr content_text)
                           [found_link env (clock_reads w)] context
                           (clock_reads w + 1)))
    /\ (responsive env -> 11 <= fuel ->
        exists out, run_orchestrator env fuel "farbrengen" ui ts w = Returned out).
Proof.
  intros env fuel ui ts w. split.
  - intros out Hout. apply run_orchestrator_returned in Hout.
    destruct Hout as (trace & st' & w' & Hrun & ->).
    apply walk_farbrengen in Hrun.
    destruct Hrun as ((ct & c & t & H1 & H2 & H3 & H4) & _).
    now exists ct, c, t.
  - intros Hresp Hfuel.
    now apply (run_orchestrator_returns env fuel "farbrengen" ui ts w
                 ["research"; "context"; "content"; "links"]).
Qed.

(** X10: the report of a [dvar_torah] that returns holds the stored
    source and, as content, the text of the second reply; its list of
    verified links is empty and its context is [None], since neither step
    is on the checklist, and the output of the translation step is not
    part of the report.  With responsive collaborators and nine steps of
    fuel it does return. *)
Theorem dvar_torah_report :
  forall (env : Env) (fuel : nat) (ui ts : string) (w : World),
    (forall out,
        run_orchestrator env fuel "dvar_torah" ui ts w = Returned out ->
        exists content_text,
          reply env (requests w + 1) = Some content_text
          /\ out = Some (report env "dvar_torah" (VStr content_text) [] VNone
                           (clock_reads w)))
    /\ (responsive env -> 9 <= fuel ->
        exists out, run_orchestrator env fuel "dvar_torah" ui ts w = Returned out).
Proof.
  intros env fuel ui ts w. split.
  - intros out Hout. apply run_orchestrator_returned in Hout.
    destruct Hout as (trace & st' & w' & Hrun & ->).
    apply walk_dvar_torah in Hrun.
    destruct Hrun as ((t & H1 & H2) & _).
    now exists t.
  - intros Hresp Hfuel.
    now apply (run_orchestrator_returns env fuel "dvar_torah" ui ts w
                 ["research"; "content"; "translation"]).
Qed.

(** X11: what a finished walk costs.  From the initial state of
    [run_orchestrator] a walk that reaches END has sent three requests to
    the model and read the clock twice for a [farbrengen], one request and
    two readings for a [source_lookup], two requests and one reading for a
    [dvar_torah]; no other task type reaches END. *)
Theorem finished_walk_requests_and_clock_reads :
  forall (env : Env) (fuel : nat) (tt ui ts : string) (w : World)
         (trace : list visit) (st' : AgentState) (w' : World),
    run_workflow env fuel (initial_state tt ui ts) w = (trace, Done st' w') ->
    (tt = "farbrengen"
     /\ requests w' = requests w + 3 /\ clock_reads w' = clock_reads w + 2)
    \/ (tt = "source_lookup"
        /\ requests w' = requests w + 1 /\ clock_reads w' = clock_reads w + 2)
    \/ (tt = "dvar_torah"
        /\ requests w' = requests w + 2 /\ clock_reads w' = clock_reads w + 1).
Proof.
  intros env fuel tt ui ts w trace st' w' Hrun.
  destruct (spec_required_steps tt) as [cl |] eqn:Hcl.
  - apply spec_required_steps_cases in Hcl.
    destruct Hcl as [[-> _] | [[-> _] | [-> _]]].
    + left. apply walk_farbrengen in Hrun. tauto.
    + right. left. apply walk_source_lookup in Hrun. tauto.
    + right. right. apply walk_dvar_torah in Hrun. tauto.
  - exfalso. unfold run_workflow in Hrun.
    cbn [entry_point create_workflow] in Hrun.
    destruct fuel as [| fuel]; [discriminate Hrun |].
    rewrite run_undeclared_abort in Hrun; [discriminate Hrun | exact Hcl |].
    cbn. intros H. decompose [or] H; try contradiction; discriminate.
Qed.

Lemma finished_walk_requests_and_clock_reads_witness :
  exists trace st' w',
    run_workflow obliging_env 7 (initial_state "source_lookup" "Hermon" "0.0") world0
    = (trace, Done st' w')
    /\ requests w' = requests world0 + 1
    /\ clock_reads w' = clock_reads world0 + 2.
Proof.
  assert (E : exists trace st' w',
             run_workflow obliging_env 7
               (initial_state "source_lookup" "Hermon" "0.0") world0
             = (trace, Done st' w'))
    by (eexists _, _, _; lazy; reflexivity).
  destruct E as (trace & st' & w' & E).
  exists trace, st', w'. split; [exact E |].
  destruct (finished_walk_requests_and_clock_reads obliging_env 7
              "source_lookup" "Hermon" "0.0" world0 trace st' w' E)
    as [[X _] | [[_ H] | [X _]]]; [discriminate X | exact H | discriminate X].
Defined.

(* ================================================================== *)
(** ** The upload script *)
(* ================================================================== *)

Lemma quiet_uret {A : Type} (a : A) : quiet (uret a).
Proof. intro s. split; [reflexivity | discriminate]. Qed.

Lemma quiet_ubind {A B : Type} (m : U A) (k : A -> U B) :
  quiet m -> (forall a, quiet (k a)) -> quiet (ubind m k).
Proof.
  intros Hm Hk s. unfold ubind.
  destruct (Hm s) as [Hi Hr].
  destruct (m s) as [[a | e] s1]; cbn [fst snd] in *.
  - destruct (Hk a s1) as [Hi' Hr']. split; [congruence | assumption].
  - split; [assumption |]. intros [= ->]. now apply Hr.
Qed.

Lemma quiet_lift {A : Type} (r : uresult A) :
  r <> URaise UAPIError -> quiet (lift r).
Proof. intros Hr s. split; [reflexivity | exact Hr]. Qed.

Lemma quiet_unow (host : Host) : quiet (unow host).
Proof. intro s. split; [reflexivity | discriminate]. Qed.

Lemma subscript_no_api (v : pyval) (key : string) :
  subscript v key <> URaise UAPIError.
Proof. destruct v; cbn; try discriminate. destruct (assoc key d); discriminate. Qed.

Lemma py_get_no_api (v : pyval) (key : string) (default : pyval) :
  py_get v key default <> URaise UAPIError.
Proof. destruct v; cbn; try discriminate. destruct (assoc key d); discriminate. Qed.

Lemma py_iter_no_api (v : pyval) : py_iter v <> URaise UAPIError.
Proof. destruct v; discriminate. Qed.

Lemma first_word_lower_no_api (host : Host) (v : pyval) :
  first_word_lower host v <> URaise UAPIError.
Proof.
  destruct v; cbn; try discriminate. destruct (str_split host s); discriminate.
Qed.

Create HintDb quiet.
#[local] Hint Resolve quiet_uret quiet_lift quiet_unow subscript_no_api
  py_get_no_api py_iter_no_api first_word_lower_no_api : quiet.

Lemma source_row_quiet (host : Host) (conv source : pyval) :
  quiet (source_row host conv source).
Proof.
  unfold source_row.
  repeat (apply quiet_ubind; [auto with quiet | intro]).
  apply quiet_uret.
Qed.

Lemma rows_of_sources_quiet (host : Host) (conv : pyval) (sources : list pyval) :
  quiet (rows_of_sources host conv sources).
Proof.
  induction sources as [| source rest IH]; cbn [rows_of_sources].
  - apply quiet_uret.
  - apply quiet_ubind; [apply source_row_quiet | intro].
    apply quiet_ubind; [exact IH | intro]. apply quiet_uret.
Qed.

Lemma rows_of_turns_quiet (host : Host) (conv : pyval) (turns : list pyval) :
  quiet (rows_of_turns host conv turns).
Proof.
  induction turns as [| turn rest IH]; cbn [rows_of_turns].
  - apply quiet_uret.
  - apply quiet_ubind; [auto with quiet | intro type].
    apply quiet_ubind.
    + destruct (py_eq_str type "halachic_source_compilation");
        [| apply quiet_uret].
      apply quiet_ubind; [auto with quiet | intro].
      apply quiet_ubind; [auto with quiet | intro].
      apply rows_of_sources_quiet.
    + intro. apply quiet_ubind; [exact IH | intro]. apply quiet_uret.
Qed.

(** X12: [upload_sources] is all or nothing.  It issues at most one
    request, the upsert of all rows into ["sources"], and only once every
    row has been built: when it returns [None], or raises anything but the
    failure of that request, nothing has been issued. *)
Theorem upload_sources_all_or_nothing :
  forall (host : Host) (conversation_data : pyval) (s : Store),
    match upload_sources host conversation_data s with
    | (UOk None, s') => issued s' = issued s
    | (UOk (Some _), s') | (URaise UAPIError, s') =>
        exists rows,
          rows <> []
          /\ issued s' = issued s ++ [Upsert "sources" (VList (map VDict rows))]
    | (URaise _, s') => issued s' = issued s
    end.
Proof.
  intros host conv s. unfold upload_sources, ubind, lift.
  pose proof (subscript_no_api conv "conversation_flow") as Hf.
  destruct (subscript conv "conversation_flow") as [flow | e].
  2:{ destruct e; try reflexivity. now exfalso. }
  pose proof (py_iter_no_api flow) as Hi.
  destruct (py_iter flow) as [turns | e].
  2:{ destruct e; try reflexivity. now exfalso. }
  destruct (rows_of_turns_quiet host conv turns s) as [Hq Hr].
  destruct (rows_of_turns host conv turns s) as [[rows | e] s1]; cbn [fst snd] in *.
  2:{ destruct e; try assumption. now exfalso. }
  destruct rows as [| row rows]; [exact Hq |].
  unfold send, uret. cbn [issued].
  destruct (execute host (length (issued s1)));
    exists (row :: rows); (split; [discriminate | now rewrite Hq]).
Qed.

Lemma ubind_lift {A B : Type} (r : uresult A) (k : A -> U B) (s : Store) :
  ubind (lift r) k s
  = match r with
    | UOk a => k a s
    | URaise e => (URaise e, s)
    end.
Proof. unfold ubind, lift. now destruct r. Qed.

Lemma ubind_unow {B : Type} (host : Host) (k : string -> U B) (s : Store) :
  ubind (unow host) k s
  = k (isoformat_utcnow (host_env host) (clock s)) (mkStore (issued s) (S (clock s))).
Proof. reflexivity. Qed.

(** What a row that was built says about its source. *)
Lemma source_row_ok (host : Host) (conv source : pyval) (s s' : Store) (row : dict) :
  source_row host conv source s = (UOk row, s') ->
  is_dict source
  /\ assoc "citation" row = Some (source_field "source" source)
  /\ row_of_conversation conv row.
Proof.
  unfold source_row. rewrite ubind_lift.
  destruct (py_get source "source" (VStr "")) as [name |] eqn:Hn; [| discriminate].
  rewrite ubind_lift.
  destruct (first_word_lower host name); [| discriminate].
  rewrite ubind_lift. cbv beta iota. rewrite ubind_lift.
  destruct (py_get source "quote" (VStr "")); [| discriminate].
  rewrite ubind_lift.
  destruct (py_get source "url" (VStr "")); [| discriminate].
  rewrite ubind_lift.
  destruct (py_get source "page_reference" (VStr "")); [| discriminate].
  rewrite ubind_unow, ubind_lift.
  destruct (subscript conv "conversation_id") as [cid |] eqn:Hc; [| discriminate].
  unfold uret. intros [= <- <-].
  destruct source; try discriminate Hn.
  split; [now exists d |]. split.
  - cbn in Hn |- *. destruct (assoc "source" d); now injection Hn as <-.
  - exists cid. split; [exact Hc | reflexivity].
Qed.

Lemma rows_of_sources_ok (host : Host) (conv : pyval) (sources : list pyval) :
  forall (s s' : Store) (rows : list dict),
    rows_of_sources host conv sources s = (UOk rows, s') ->
    Forall is_dict sources
    /\ map (assoc "citation") rows
       = map (fun source => Some (source_field "source" source)) sources
    /\ Forall (row_of_conversation conv) rows.
Proof.
  induction sources as [| source rest IH]; intros s s' rows; cbn [rows_of_sources].
  - unfold uret. intros [= <- <-]. repeat split; constructor.
  - unfold ubind at 1.
    destruct (source_row host conv source s) as [[row | e] s1] eqn:Hrow;
      [| discriminate].
    unfold ubind at 1.
    destruct (rows_of_sources host conv rest s1) as [[more | e] s2] eqn:Hmore;
      [| discriminate].
    unfold uret. intros [= <- <-].
    apply source_row_ok in Hrow. destruct Hrow as (Hd & Hc & Hr).
    apply IH in Hmore. destruct Hmore as (Hds & Hcs & Hrs).
    repeat split; [now constructor | cbn [map]; now rewrite Hc, Hcs | now constructor].
Qed.

(** The rows built for one turn. *)
Lemma rows_of_turn_ok (host : Host) (conv turn type : pyval) (s s' : Store)
    (rows : list dict) :
  py_get turn "type" VNone = UOk type ->
  (if py_eq_str type "halachic_source_compilation" then
     provided <~ lift (py_get turn "sources_provided" (VList [])) ;;
     sources <~ lift (py_iter provided) ;;
     rows_of_sources host conv sources
   else uret []) s = (UOk rows, s') ->
  Forall is_dict (provided_sources turn)
  /\ map (assoc "citation") rows
     = map (fun source => Some (source_field "source" source)) (provided_sources turn)
  /\ Forall (row_of_conversation conv) rows.
Proof.
  intros Hty Hrows.
  destruct turn as [| | | | | d]; try discriminate Hty.
  cbn in Hty. unfold provided_sources.
  assert (Hnone : forall r s0 s1, uret (A := list dict) [] s0 = (UOk r, s1) ->
                    Forall is_dict [] /\ map (assoc "citation") r = [] /\
                    Forall (row_of_conversation conv) r).
  { unfold uret. intros r s0 s1 [= <- <-]. repeat split; constructor. }
  destruct (assoc "type" d) as [[| | | t | |] |]; injection Hty as <-;
    cbn [py_eq_str] in Hrows; try (now apply (Hnone _ _ _ Hrows)).
  destruct (String.eqb t "halachic_source_compilation");
    [| now apply (Hnone _ _ _ Hrows)].
  rewrite ubind_lift in Hrows. cbn [py_get] in Hrows.
  destruct (assoc "sources_provided" d) as [[| | | t0 | l | kv] |];
    rewrite ubind_lift in Hrows; cbn [py_iter] in Hrows; try discriminate Hrows.
  - apply rows_of_sources_ok in Hrows. destruct Hrows as (Hd & Hc & Hr).
    destruct (list_ascii_of_string t0);
      [| cbn in Hd; apply Forall_inv in Hd; destruct Hd as [? [=]]].
    repeat split; [constructor | exact Hc | exact Hr].
  - now apply rows_of_sources_ok in Hrows.
  - apply rows_of_sources_ok in Hrows. destruct Hrows as (Hd & Hc & Hr).
    destruct kv; [| cbn in Hd; apply Forall_inv in Hd; destruct Hd as [? [=]]].
    repeat split; [constructor | exact Hc | exact Hr].
  - now apply rows_of_sources_ok in Hrows.
Qed.

Lemma rows_of_turns_ok (host : Host) (conv : pyval) (turns : list pyval) :
  forall (s s' : Store) (rows : list dict),
    rows_of_turns host conv turns s = (UOk rows, s') ->
    Forall is_dict (flat_map provided_sources turns)
    /\ map (assoc "citation") rows
       = map (fun source => Some (source_field "source" source))
             (flat_map provided_sources turns)
    /\ Forall (row_of_conversation conv) rows.
Proof.
  induction turns as [| turn rest IH]; intros s s' rows; cbn [rows_of_turns].
  - unfold uret. intros [= <- <-]. repeat split; constructor.
  - rewrite ubind_lift.
    destruct (py_get turn "type" VNone) as [type |] eqn:Hty; [| discriminate].
    unfold ubind at 1.
    match goal with
    | |- context [match ?m s with _ => _ end] =>
        destruct (m s) as [[rows1 | e] s1] eqn:H1; [| discriminate]
    end.
    unfold ubind at 1.
    destruct (rows_of_turns host conv rest s1) as [[more | e] s2] eqn:Hmore;
      [| discriminate].
    unfold uret. intros [= <- <-].
    apply (rows_of_turn_ok host conv turn type) in H1; [| exact Hty].
    destruct H1 as (Hd & Hc & Hr).
    apply IH in Hmore. destruct Hmore as (Hds & Hcs & Hrs).
    cbn [flat_map]. split; [apply Forall_app; now split |].
    split; [| apply Forall_app; now split].
    rewrite !map_app. f_equal; assumption.
Qed.

(** X13: when [upload_sources] sends its request, the rows are the
    sources provided by the turns of type ["halachic_source_compilation"],
    in order: one row per source, its ["citation"] the source's
    ["source"] (the empty string when the key is missing), and every row
    carrying the ["conversation_id"] of the conversation. *)
Theorem upload_sources_rows :
  forall (host : Host) (conversation_data : pyval) (turns : list pyval)
         (s s' : Store) (response : api_response),
    subscript conversation_data "conversation_flow" = UOk (VList turns) ->
    upload_sources host conversation_data s = (UOk (Some response), s') ->
    exists rows,
      issued s' = issued s ++ [Upsert "sources" (VList (map VDict rows))]
      /\ map (assoc "citation") rows
         = map (fun source => Some (source_field "source" source))
               (flat_map provided_sources turns)
      /\ Forall (row_of_conversation conversation_data) rows.
Proof.
  intros host conv turns s s' response Hflow.
  unfold upload_sources. rewrite ubind_lift, Hflow, ubind_lift. cbn [py_iter].
  unfold ubind at 1.
  destruct (rows_of_turns_quiet host conv turns s) as [Hq _].
  destruct (rows_of_turns host conv turns s) as [[rows | e] s1] eqn:Hrows;
    [| discriminate].
  cbn [snd] in Hq.
  apply rows_of_turns_ok in Hrows. destruct Hrows as (_ & Hc & Hr).
  destruct rows as [| row rows]; [discriminate |].
  unfold ubind, send, uret.
  destruct (execute host (length (issued s1))); [| discriminate].
  intros [= <- <-]. exists (row :: rows). cbn [issued]. rewrite Hq.
  repeat split; assumption.
Qed.

Lemma upload_sources_rows_witness :
  subscript one_source_conversation "conversation_flow"
  = UOk (VList [VDict [ ("type", VStr "halachic_source_compilation");
                        ("sources_provided",
                         VList [VDict [("source", VStr "sicha")]]) ]])
  /\ fst (upload_sources sample_host one_source_conversation store0)
     = UOk (Some (ApiResponse (VList [])))
  /\ exists rows,
       issued (snd (upload_sources sample_host one_source_conversation store0))
       = issued store0 ++ [Upsert "sources" (VList (map VDict rows))]
       /\ map (assoc "citation") rows = [Some (VStr "sicha")]
       /\ Forall (row_of_conversation one_source_conversation) rows.
Proof.
  split; [reflexivity |]. split; [reflexivity |].
  exact (upload_sources_rows sample_host one_source_conversation
           [VDict [ ("type", VStr "halachic_source_compilation");
                    ("sources_provided",
                     VList [VDict [("source", VStr "sicha")]]) ]]
           store0
           (snd (upload_sources sample_host one_source_conversation store0))
           (ApiResponse (VList [])) eq_refl eq_refl).
Defined.

(** A source without a ["source"] key has no first word. *)
Lemma source_row_nameless (host : Host) (conv : pyval) (d : dict) (s : Store) :
  str_split host "" = [] ->
  assoc "source" d = None ->
  fst (source_row host conv (VDict d) s) = URaise UIndexError.
Proof.
  intros Hsplit Hnone. unfold source_row. rewrite ubind_lift.
  cbn [py_get]. rewrite Hnone, ubind_lift. cbn [first_word_lower].
  now rewrite Hsplit.
Qed.

Lemma rows_of_sources_all_built (host : Host) (conv : pyval) (sources : list pyval) :
  forall (s s' : Store) (rows : list dict),
    rows_of_sources host conv sources s = (UOk rows, s') ->
    Forall (fun source => exists s0 row, fst (source_row host conv source s0) = UOk row)
           sources.
Proof.
  induction sources as [| source rest IH]; intros s s' rows; cbn [rows_of_sources].
  - constructor.
  - unfold ubind at 1.
    destruct (source_row host conv source s) as [[row | e] s1] eqn:Hrow;
      [| discriminate].
    unfold ubind at 1.
    destruct (rows_of_sources host conv rest s1) as [[more | e] s2] eqn:Hmore;
      [| discriminate].
    intros _. constructor; [| now apply (IH _ _ _ Hmore)].
    exists s, row. now rewrite Hrow.
Qed.

Lemma rows_of_turns_all_built (host : Host) (conv : pyval) (turns : list pyval) :
  forall (s s' : Store) (rows : list dict),
    rows_of_turns host conv turns s = (UOk rows, s') ->
    Forall (fun source => exists s0 row, fst (source_row host conv source s0) = UOk row)
           (flat_map provided_sources turns).
Proof.
  induction turns as [| turn rest IH]; intros s s' rows; cbn [rows_of_turns].
  - constructor.
  - rewrite ubind_lift.
    destruct (py_get turn "type" VNone) as [type |] eqn:Hty; [| discriminate].
    unfold ubind at 1.
    match goal with
    | |- context [match ?m s with _ => _ end] =>
        destruct (m s) as [[rows1 | e] s1] eqn:H1; [| discriminate]
    end.
    unfold ubind at 1.
    destruct (rows_of_turns host conv rest s1) as [[more | e] s2] eqn:Hmore;
      [| discriminate].
    intros _. cbn [flat_map]. apply Forall_app. split; [| now apply (IH _ _ _ Hmore)].
    destruct turn as [| | | | | d]; try discriminate Hty.
    cbn in Hty. unfold provided_sources.
    destruct (assoc "type" d) as [[| | | t | |] |]; try constructor.
    injection Hty as <-. cbn [py_eq_str] in H1.
    destruct (String.eqb t "halachic_source_compilation"); [| constructor].
    destruct (assoc "sources_provided" d) as [[| | | | l |] |] eqn:Hp;
      try constructor.
    rewrite ubind_lift in H1. cbn [py_get] in H1. rewrite Hp, ubind_lift in H1.
    cbn [py_iter] in H1. now apply rows_of_sources_all_built in H1.
Qed.

(** X14: one provided source without a ["source"] key stops the whole
    upload.  [source.get("source", "")] then yields the empty string,
    whose [split()] is empty, so [[0]] raises: [upload_sources] raises and
    no row of any source is sent. *)
Theorem upload_sources_fails_on_nameless_source :
  forall (host : Host) (conversation_data : pyval) (turns : list pyval)
         (d : dict) (s : Store),
    str_split host "" = [] ->
    subscript conversation_data "conversation_flow" = UOk (VList turns) ->
    In (VDict d) (flat_map provided_sources turns) ->
    assoc "source" d = None ->
    exists e,
      fst (upload_sources host conversation_data s) = URaise e
      /\ issued (snd (upload_sources host conversation_data s)) = issued s.
Proof.
  intros host conv turns d s Hsplit Hflow Hin Hnone.
  assert (H : exists e s1,
             upload_sources host conv s = (URaise e, s1) /\ issued s1 = issued s).
  { unfold upload_sources. rewrite ubind_lift, Hflow, ubind_lift. cbn [py_iter].
    unfold ubind at 1.
    destruct (rows_of_turns_quiet host conv turns s) as [Hq _].
    destruct (rows_of_turns host conv turns s) as [[rows | e] s1] eqn:Hrows.
    - exfalso. apply rows_of_turns_all_built in Hrows.
      rewrite Forall_forall in Hrows.
      destruct (Hrows _ Hin) as (s0 & row & Hrow).
      rewrite (source_row_nameless host conv d s0 Hsplit Hnone) in Hrow.
      discriminate Hrow.
    - exists e, s1. split; [reflexivity | exact Hq]. }
  destruct H as (e & s1 & H & Hi). rewrite H. now exists e.
Qed.

Lemma upload_sources_fails_on_nameless_source_witness :
  str_split sample_host "" = []
  /\ subscript nameless_source_conversation "conversation_flow"
     = UOk (VList [VDict [ ("type", VStr "halachic_source_compilation");
                           ("sources_provided",
                            VList [VDict [("quote", VStr "q")]]) ]])
  /\ fst (upload_sources sample_host nameless_source_conversation store0)
     = URaise UIndexError
  /\ exists e,
       fst (upload_sources sample_host nameless_source_conversation store0) = URaise e
       /\ issued (snd (upload_sources sample_host nameless_source_conversation store0))
          = issued store0.
Proof.
  split; [reflexivity |]. split; [reflexivity |]. split; [reflexivity |].
  apply (upload_sources_fails_on_nameless_source sample_host
           nameless_source_conversation
           [VDict [ ("type", VStr "halachic_source_compilation");
                    ("sources_provided",
                     VList [VDict [("quote", VStr "q")]]) ]]
           [("quote", VStr "q")] store0);
    [reflexivity | reflexivity | cbn; auto | reflexivity].
Defined.

(** X15: without a ["farbrengen_structure"] among the final
    deliverables, [upload_generated_content] returns [None] and sends
    nothing, also when the conversation has no ["final_deliverables"],
    no ["created_at"] or no ["conversation_id"]. *)
Theorem upload_generated_content_skips_without_structure :
  forall (host : Host) (c : dict) (s : Store),
    (assoc "final_deliverables" c = None
     \/ exists d, assoc "final_deliverables" c = Some (VDict d)
                  /\ has_key "farbrengen_structure" d = false) ->
    upload_generated_content host (VDict c) s = (UOk None, s).
Proof.
  intros host c s H. unfold upload_generated_content.
  rewrite ubind_lift. cbn [py_get].
  destruct H as [-> | (d & -> & Hd)]; rewrite ubind_lift; cbn [py_contains].
  - reflexivity.
  - now rewrite Hd.
Qed.

Lemma upload_generated_content_skips_without_structure_witness :
  (assoc "final_deliverables" [("topic", VStr "chanukah")] = None
   \/ exists d, assoc "final_deliverables" [("topic", VStr "chanukah")] = Some (VDict d)
                /\ has_key "farbrengen_structure" d = false)
  /\ upload_generated_content sample_host (VDict [("topic", VStr "chanukah")]) store0
     = (UOk None, store0).
Proof.
  split; [now left |].
  apply (upload_generated_content_skips_without_structure sample_host
           [("topic", VStr "chanukah")] store0).
  now left.
Defined.

(** X16: with a ["farbrengen_structure"] among the final deliverables,
    [upload_generated_content] sends exactly one request, the insert of
    one row into ["generated_content"] with the dumped structure, the
    conversation's ["created_at"] and ["conversation_id"], and the
    defaults [{}] for the sources and [""] for the location; when
    ["created_at"] or ["conversation_id"] is missing it raises [KeyError]
    on that key and sends nothing. *)
Theorem upload_generated_content_inserts_one_row :
  forall (host : Host) (c d : dict) (structure : pyval) (s : Store),
    assoc "final_deliverables" c = Some (VDict d) ->
    assoc "farbrengen_structure" d = Some structure ->
    upload_generated_content host (VDict c) s
    = match assoc "created_at" c, assoc "conversation_id" c with
      | Some created_at, Some conversation_id =>
          (match execute host (length (issued s)) with
           | Some response => UOk (Some response)
           | None => URaise UAPIError
           end,
           mkStore
             (issued s
              ++ [Insert "generated_content"
                    (generated_content_row host structure
                       (dict_get d "sources_compiled" (VDict []))
                       created_at conversation_id
                       (dict_get c "location" (VStr "")))])
             (clock s))
      | None, _ => (URaise (UKeyError "created_at"), s)
      | Some _, None => (URaise (UKeyError "conversation_id"), s)
      end.
Proof.
  intros host c d structure s Hd Hs. unfold upload_generated_content.
  rewrite ubind_lift. cbn [py_get]. rewrite Hd, ubind_lift. cbn [py_contains].
  unfold has_key. rewrite Hs, ubind_lift. cbn [subscript]. rewrite Hs, ubind_lift.
  cbn [py_get]. unfold dict_get.
  assert (Hsrc : match assoc "sources_compiled" d with
                 | Some x => UOk x
                 | None => UOk (VDict [])
                 end
                 = UOk (match assoc "sources_compiled" d with
                        | Some x => x
                        | None => VDict []
                        end)) by (now destruct (assoc "sources_compiled" d)).
  rewrite Hsrc, ubind_lift.
  destruct (assoc "created_at" c) as [created_at |]; [| reflexivity].
  rewrite ubind_lift.
  destruct (assoc "conversation_id" c) as [conversation_id |]; [| reflexivity].
  rewrite ubind_lift.
  assert (Hloc : match assoc "location" c with
                 | Some x => UOk x
                 | None => UOk (VStr "")
                 end
                 = UOk (match assoc "location" c with
                        | Some x => x
                        | None => VStr ""
                        end)) by (now destruct (assoc "location" c)).
  rewrite Hloc. unfold ubind, send, uret.
  now destruct (execute host (length (issued s))).
Qed.

Lemma upload_generated_content_inserts_one_row_witness :
  assoc "final_deliverables"
    [("final_deliverables", VDict [("farbrengen_structure", VStr "opening")])]
  = Some (VDict [("farbrengen_structure", VStr "opening")])
  /\ assoc "farbrengen_structure" [("farbrengen_structure", VStr "opening")]
     = Some (VStr "opening")
  /\ upload_generated_content sample_host
       (VDict [("final_deliverables",
                VDict [("farbrengen_structure", VStr "opening")])]) store0
     = (URaise (UKeyError "created_at"), store0).
Proof.
  split; [reflexivity |]. split; [reflexivity |].
  exact (upload_generated_content_inserts_one_row sample_host
           [("final_deliverables", VDict [("farbrengen_structure", VStr "opening")])]
           [("farbrengen_structure", VStr "opening")] (VStr "opening") store0
           eq_refl eq_refl).
Defined.

(** X17: [upload_conversation] sends its upsert before it reads
    [metadata.total_turns] for the log line.  Once the four subscripted
    keys are present and every turn has a ["speaker"], the row is sent
    with [metadata] defaulting to [{}]; only afterwards does a
    conversation without ["metadata"] raise [KeyError] on it, and one
    whose metadata lacks ["total_turns"] raise on that, so the function
    can raise although the row has been stored. *)
Theorem upload_conversation_upserts_before_reading_metadata :
  forall (host : Host) (file : string) (c : dict)
         (id created_at topic flow : pyval) (agents names : list pyval)
         (response : api_response) (s : Store),
    json_load_file host file = Some (VDict c) ->
    assoc "conversation_id" c = Some id ->
    assoc "created_at" c = Some created_at ->
    assoc "topic" c = Some topic ->
    assoc "conversation_flow" c = Some flow ->
    py_iter flow = UOk agents ->
    speakers agents = UOk names ->
    execute host (length (issued s)) = Some response ->
    upload_conversation host file s
    = (match assoc "metadata" c with
       | None => URaise (UKeyError "metadata")
       | Some metadata =>
           match subscript metadata "total_turns" with
           | UOk _ => UOk response
           | URaise e => URaise e
           end
       end,
       mkStore
         (issued s
          ++ [Upsert "conversations"
                (conversation_row id created_at topic (VDict c) names
                   (dict_get c "metadata" (VDict [])))])
         (clock s)).
Proof.
  intros host file c id created_at topic flow agents names response s
         Hfile Hid Hcr Htopic Hflow Hiter Hnames Hexec.
  unfold upload_conversation. rewrite Hfile.
  rewrite ubind_lift. cbv beta iota.
  rewrite ubind_lift. cbn [subscript]. rewrite Hid.
  rewrite ubind_lift. rewrite Hcr.
  rewrite ubind_lift. rewrite Htopic.
  rewrite ubind_lift. rewrite Hflow.
  rewrite ubind_lift. rewrite Hiter.
  rewrite ubind_lift. rewrite Hnames.
  rewrite ubind_lift. cbn [py_get]. unfold dict_get.
  destruct (assoc "metadata" c) as [metadata |];
    cbv beta iota;
    unfold ubind at 1; unfold send; rewrite Hexec; cbv beta iota;
    repeat (rewrite ubind_lift; cbv beta iota);
    [| reflexivity].
  now destruct (subscript metadata "total_turns").
Qed.

Lemma upload_conversation_upserts_before_reading_metadata_witness :
  json_load_file sample_host "conversation.json"
  = Some (VDict [ ("conversation_id", VStr "c1");
                  ("created_at", VStr "2024-12-19");
                  ("topic", VStr "chanukah");
                  ("conversation_flow", VList [VDict [("speaker", VStr "rebbe")]]) ])
  /\ fst (upload_conversation sample_host "conversation.json" store0)
     = URaise (UKeyError "metadata")
  /\ length (issued (snd (upload_conversation sample_host "conversation.json" store0)))
     = 1.
Proof.
  split; [reflexivity |].
  rewrite (upload_conversation_upserts_before_reading_metadata sample_host
             "conversation.json" _ (VStr "c1") (VStr "2024-12-19") (VStr "chanukah")
             (VList [VDict [("speaker", VStr "rebbe")]])
             [VDict [("speaker", VStr "rebbe")]] [VStr "rebbe"]
             (ApiResponse (VList [])) store0
             eq_refl eq_refl eq_refl eq_refl eq_refl eq_refl eq_refl eq_refl).
  split; reflexivity.
Defined.

(** X18: [upload_conversation] sends nothing unless the file decodes to
    a dict that has all of ["conversation_id"], ["created_at"],
    ["topic"] and ["conversation_flow"]: a file that cannot be read
    raises, and the first of these keys that is missing raises [KeyError]
    on it, in both cases before any request. *)
Theorem upload_conversation_needs_its_keys :
  forall (host : Host) (file : string) (s : Store),
    (json_load_file host file = None ->
     upload_conversation host file s = (URaise UFileError, s))
    /\ (forall (c : dict) (present : list string) (key : string) (later : list string),
          json_load_file host file = Some (VDict c) ->
          conversation_keys = present ++ key :: later ->
          (forall k, In k present -> has_key k c = true) ->
          assoc key c = None ->
          upload_conversation host file s = (URaise (UKeyError key), s)).
Proof.
  intros host file s. split.
  - intro Hfile. unfold upload_conversation. now rewrite Hfile.
  - intros c present key later Hfile Hkeys Hpresent Hmissing.
    unfold upload_conversation. rewrite Hfile, ubind_lift. cbv beta iota.
    assert (Hsub : forall k, has_key k c = true ->
                     exists x, subscript (VDict c) k = UOk x).
    { intros k Hk. unfold has_key in Hk. cbn [subscript].
      destruct (assoc k c) as [x |]; [now exists x | discriminate]. }
    assert (Hraise : subscript (VDict c) key = URaise (UKeyError key))
      by (cbn [subscript]; now rewrite Hmissing).
    unfold conversation_keys in Hkeys.
    destruct present as [| k1 [| k2 [| k3 [| k4 present]]]];
      cbn [app] in Hkeys; injection Hkeys as <-;
      repeat match goal with
             | E : ?k = _ |- _ => subst k
             | E : _ = ?k |- _ => subst k
             end.
    + now rewrite ubind_lift, Hraise.
    + destruct (Hsub "conversation_id") as [x1 H1]; [apply Hpresent; cbn; auto |].
      rewrite ubind_lift, H1, ubind_lift, Hraise. reflexivity.
    + destruct (Hsub "conversation_id") as [x1 H1]; [apply Hpresent; cbn; auto |].
      destruct (Hsub "created_at") as [x2 H2]; [apply Hpresent; cbn; auto |].
      rewrite ubind_lift, H1, ubind_lift, H2, ubind_lift, Hraise. reflexivity.
    + destruct (Hsub "conversation_id") as [x1 H1]; [apply Hpresent; cbn; auto |].
      destruct (Hsub "created_at") as [x2 H2]; [apply Hpresent; cbn; auto |].
      destruct (Hsub "topic") as [x3 H3]; [apply Hpresent; cbn; auto |].
      rewrite ubind_lift, H1, ubind_lift, H2, ubind_lift, H3, ubind_lift, Hraise.
      reflexivity.
    + destruct present; discriminate.
Qed.

(* ================================================================== *)
(** ** When a step executor raises *)
(* ================================================================== *)

(** X19: the only step executors that can raise are the three that call
    the model.  The research and context steps return exactly when their
    request is answered with text that decodes as JSON; the content step
    returns exactly when every stored source has a ["citation"] and its
    request is answered, and a source without one raises [KeyError] on
    ["citation"] whatever the model would answer. *)
Theorem step_executors_return_iff :
  forall (env : Env) (st : AgentState) (w : World),
    ((exists r, research_agent_node env st w = Ok r)
     <-> exists text v, reply env (requests w) = Some text
                        /\ json_loads env text = Some v)
    /\ ((exists r, context_enrichment_node env st w = Ok r)
        <-> exists text v, reply env (requests w) = Some text
                           /\ json_loads env text = Some v)
    /\ ((exists r, content_generation_node env st w = Ok r)
        <-> sources_cited st = true
            /\ exists text, reply env (requests w) = Some text)
    /\ (sources_cited st = false ->
        content_generation_node env st w = Raise (KeyError "citation")).
Proof.
  intros env st w.
  unfold research_agent_node, context_enrichment_node, content_generation_node,
    sources_text_ok, sources_cited, create_message, loads, bind.
  cbn [sources_found append_message requests].
  split; [split | split; [split | split; [split |]]].
  - intros [r Hr]. destruct (reply env (requests w)) as [text |]; [| discriminate].
    destruct (json_loads env text) as [v |] eqn:Hv; [| discriminate].
    now exists text, v.
  - intros (text & v & -> & ->). eexists. reflexivity.
  - intros [r Hr]. destruct (reply env (requests w)) as [text |]; [| discriminate].
    destruct (json_loads env text) as [v |] eqn:Hv; [| discriminate].
    now exists text, v.
  - intros (text & v & -> & ->). eexists. reflexivity.
  - intros [r Hr].
    destruct (forallb (has_key "citation") (get (sources_found st) []));
      [| discriminate].
    destruct (reply env (requests w)) as [text |]; [| discriminate].
    split; [reflexivity | now exists text].
  - intros (-> & text & ->). eexists. reflexivity.
  - intros ->. reflexivity.
Qed.

(* ================================================================== *)
(** ** The router's selection on the states of a run *)
(* ================================================================== *)

(** On an undeclared task type the walk started by [run_orchestrator]
    meets the router only, with [current_agent] still ["orchestrator"]. *)
Lemma reachable_undeclared (env : Env) (n : string) (st : AgentState) (w : World) :
  reachable env n st w ->
  spec_required_steps (task_type st) = None ->
  n = "orchestrator" /\ current_agent st = "orchestrator".
Proof.
  induction 1 as [tt ui ts w | n st w st' w' n' Hreach IH Hn Hexec Hsucc].
  - intros _. split; reflexivity.
  - intro Hnone. exfalso.
    pose proof (exec_node_effect env n st st' w w' Hexec) as (_ & Htt & _).
    rewrite Htt in Hnone.
    destruct (IH Hnone) as [-> Hcur].
    rewrite exec_router in Hexec. injection Hexec as <- <-.
    pose proof (orchestrator_node_unknown st Hnone) as Hkeep.
    rewrite Hcur in Hkeep.
    destruct (successor_router_cases env (orchestrator_node st))
      as [[Hin _] | [_ Hraise]].
    + rewrite Hkeep in Hin. cbn in Hin. intuition discriminate.
    + rewrite Hraise in Hsucc. discriminate Hsucc.
Qed.

(** X20: applying the router to its own result selects the same agent
    again, on every state.  For the three declared task types the
    selected name is a function of [task_type] and [completed_agents]
    alone, and so it is for any two states that walks started by
    [run_orchestrator] hand to the router, whatever the task type and the
    collaborators. *)
Theorem router_idempotent_selection :
  (forall st : AgentState,
      current_agent (orchestrator_node (orchestrator_node st))
      = current_agent (orchestrator_node st))
  /\ (forall (s1 s2 : AgentState) (cl : list string),
        spec_required_steps (task_type s1) = Some cl ->
        task_type s2 = task_type s1 ->
        completed_agents s2 = completed_agents s1 ->
        current_agent (orchestrator_node s2) = current_agent (orchestrator_node s1))
  /\ (forall (env1 env2 : Env) (s1 s2 : AgentState) (w1 w2 : World),
        reachable env1 "orchestrator" s1 w1 ->
        reachable env2 "orchestrator" s2 w2 ->
        task_type s2 = task_type s1 ->
        completed_agents s2 = completed_agents s1 ->
        current_agent (orchestrator_node s2) = current_agent (orchestrator_node s1)).
Proof.
  assert (Hdeclared : forall (s1 s2 : AgentState) (cl : list string),
             spec_required_steps (task_type s1) = Some cl ->
             task_type s2 = task_type s1 ->
             completed_agents s2 = completed_agents s1 ->
             current_agent (orchestrator_node s2) = current_agent (orchestrator_node s1)).
  { intros s1 s2 cl Hcl Htt Hc.
    rewrite (orchestrator_node_selects s1 cl Hcl).
    rewrite (orchestrator_node_selects s2 cl) by (now rewrite Htt).
    now rewrite Hc. }
  split; [exact orchestrator_node_idempotent |]. split; [exact Hdeclared |].
  intros env1 env2 s1 s2 w1 w2 H1 H2 Htt Hc.
  destruct (spec_required_steps (task_type s1)) as [cl |] eqn:Hcl.
  - now apply (Hdeclared s1 s2 cl).
  - destruct (reachable_undeclared env1 _ s1 w1 H1 Hcl) as [_ Hc1].
    assert (Hcl2 : spec_required_steps (task_type s2) = None) by (now rewrite Htt).
    destruct (reachable_undeclared env2 _ s2 w2 H2 Hcl2) as [_ Hc2].
    rewrite (orchestrator_node_unknown s1 Hcl), (orchestrator_node_unknown s2 Hcl2).
    now rewrite Hc1, Hc2.
Qed.
